(** * Detector: a shallow embedding of [detect/detector.py]

    The file follows the Python source function by function.  The deep
    learning runtime (mxnet), the array library (numpy) and the imaging
    library (cv2) are external: the runtime and the imaging calls are
    fields of an environment record, numpy arrays live in a store of
    buffers addressed by locations, and every call that leaves the
    module is written to a log, so that "what was called, in which
    order, on which data" can be stated.

    The source is Python 2 code ([map] returns a list, [1L] literals),
    run with the NumPy of that time: a [float32] scalar combined with a
    Python number is computed in [float64]. *)

From Stdlib Require Import ZArith List String Ascii Bool Lia.
From Stdlib Require Import Floats.SpecFloat.
From stdpp Require Import gmap strings list.

Import ListNotations.
Local Open Scope string_scope.
Local Open Scope list_scope.
Local Open Scope Z_scope.

(** ** Python: exceptions, results, sequences and strings *)

Module Py.

(** The exceptions that the modelled code can raise or let through. *)
Inductive exn : Type :=
| IndexError
| ValueError
| OverflowError
| TypeError
| IOError (msg : string)
| RuntimeFailure (msg : string).

Inductive result (A : Type) : Type :=
| Ok (a : A)
| Raise (e : exn).

Arguments Ok {A} a.
Arguments Raise {A} e.

Definition is_ok {A} (r : result A) : bool :=
  match r with Ok _ => true | Raise _ => false end.

(** [seq[i]] on a list or tuple: a negative index counts from the end,
    anything outside [-len, len) raises [IndexError]. *)
Definition getitem {A} (l : list A) (i : Z) : result A :=
  let n := Z.of_nat (List.length l) in
  if (0 <=? i) && (i <? n) then
    match nth_error l (Z.to_nat i) with Some x => Ok x | None => Raise IndexError end
  else if (- n <=? i) && (i <? 0) then
    match nth_error l (Z.to_nat (n + i)) with Some x => Ok x | None => Raise IndexError end
  else Raise IndexError.

(** [s.endswith(suffix)]. *)
Definition endswith (s suffix : string) : bool :=
  let n := String.length s in
  let k := String.length suffix in
  (k <=? n)%nat && String.eqb (String.substring (n - k) k s) suffix.

End Py.

Export Py.

(** ** NumPy scalars: IEEE 754 binary floating point

    A scalar is a [spec_float]: zero, infinity, NaN or a finite
    [(sign, mantissa, exponent)].  [float32] has precision 24 and
    [emax] 128, Python's [float] ([float64]) has 53 and 1024.  The
    mantissa of a finite number is kept normalised for its format, so a
    [float32] is widened ([to_f64]) before it meets a [float64]. *)

Module Np.

Definition scalar := spec_float.

Definition f32_of_Z (z : Z) : scalar := binary_normalize 24 128 z 0 false.
Definition f64_of_Z (z : Z) : scalar := binary_normalize 53 1024 z 0 false.

(** The decimal literal [num/den], rounded to nearest even. *)
Definition f32_lit (num den : Z) : scalar :=
  SFdiv 24 128 (f32_of_Z num) (f32_of_Z den).
Definition f64_lit (num den : Z) : scalar :=
  SFdiv 53 1024 (f64_of_Z num) (f64_of_Z den).

Definition zero : scalar := S754_zero false.

(** [x >= 0]: false on NaN. *)
Definition ge_zero (x : scalar) : bool := SFleb zero x.

(** The [float64] of the same value: where a [float32] meets a Python
    number, NumPy first widens it, which is exact. *)
Definition to_f64 (x : scalar) : scalar :=
  match x with
  | S754_finite s m e => binary_normalize 53 1024 (cond_Zopp s (Z.pos m)) e s
  | _ => x
  end.

(** [x > y], computed in [float64]: false when either side is NaN. *)
Definition float_gt (x y : scalar) : bool := SFltb (to_f64 y) (to_f64 x).

(** [x * n] for a [float32] [x] and a Python [int] [n]: a [float64]. *)
Definition mul_int (x : scalar) (n : Z) : scalar :=
  SFmul 53 1024 (to_f64 x) (f64_of_Z n).

(** [int(x)]: truncation towards zero; NaN and the infinities raise. *)
Definition py_int (x : scalar) : result Z :=
  match x with
  | S754_zero _ => Ok 0
  | S754_nan => Raise ValueError
  | S754_infinity _ => Raise OverflowError
  | S754_finite s m e =>
      let mag := if 0 <=? e then Z.shiftl (Z.pos m) e
                 else Z.shiftr (Z.pos m) (- e) in
      Ok (if s then - mag else mag)
  end.

(** One row of a detection tensor of shape [(max_detections, 6)]:
    [[id, score, xmin, ymin, xmax, ymax]] (columns 0 to 5). *)
Record row : Type := Row {
  det_id : scalar;
  det_score : scalar;
  det_xmin : scalar;
  det_ymin : scalar;
  det_xmax : scalar;
  det_ymax : scalar
}.

(** [det[:, 0]] *)
Definition column0 (det : list row) : list scalar := List.map det_id det.

(** [a >= 0], element by element. *)
Definition ge_zero_mask (a : list scalar) : list bool := List.map ge_zero a.

(** [np.where(mask)[0]]: the positions of the true entries, ascending. *)
Fixpoint where_from (i : nat) (mask : list bool) : list nat :=
  match mask with
  | [] => []
  | b :: mask' =>
      if b then i :: where_from (S i) mask' else where_from (S i) mask'
  end.

Definition np_where (mask : list bool) : list nat := where_from 0 mask.

(** [det[ix]] for an integer index array [ix]: a new array holding the
    rows [det[ix[0]], det[ix[1]], ...]; an index outside [det] raises. *)
Fixpoint take_rows (det : list row) (ix : list nat) : result (list row) :=
  match ix with
  | [] => Ok []
  | i :: ix' =>
      match nth_error det i with
      | None => Raise IndexError
      | Some r =>
          match take_rows det ix' with
          | Ok rs => Ok (r :: rs)
          | Raise e => Raise e
          end
      end
  end.

(** The filtering expression of [Detector.detect], line 89:
    [det[np.where(det[:, 0] >= 0)[0]]]. *)
Definition result_filter (det : list row) : result (list row) :=
  take_rows det (np_where (ge_zero_mask (column0 det))).

(** The filter in the specification's words: the rows whose first
    column is [>= 0], in their original order. *)
Definition valid_row (r : row) : bool := ge_zero (det_id r).

Definition filter_spec (det : list row) : list row := List.filter valid_row det.

End Np.

Export Np.

(** ** The world outside the module *)

Module World.

(** *** Images (cv2) *)

(** A decoded colour image of shape [(height, width, 3)]: rows of
    pixels, a pixel being its three channel values. *)
Definition pixel : Type := (Z * Z * Z)%type.
Definition image : Type := list (list pixel).

(** [im.shape] *)
Definition shape (im : image) : Z * Z * Z :=
  (Z.of_nat (List.length im),
   Z.of_nat (List.length (List.hd [] im)),
   3).

(** Reversing the channel order: both [cv2.cvtColor(img, COLOR_RGB2BGR)]
    and [img[:, :, (0, 1, 2)] = img[:, :, (2, 1, 0)]]. *)
Definition swap_channels (im : image) : image :=
  List.map (List.map (fun p : pixel => let '(c0, c1, c2) := p in (c2, c1, c0))) im.

(** The text [classes[cls_id], score] that ['%s %.3f'] formats. *)
Record label : Type := Label { lb_class : string; lb_score : scalar }.

(** *** Data iterators (dataset package and mxnet) *)

(** [im_list] is "list of str or str". *)
Inductive paths : Type :=
| OnePath (p : string)
| PathList (ps : list string).

Record TestDB : Type := MkTestDB {
  db_images : paths;
  db_root_dir : option string;
  db_extension : option string
}.

Inductive data_iter : Type :=
| DetIter (imdb : TestDB) (batch_size : Z) (data_shape : Z)
          (mean_pixels : scalar * scalar * scalar) (is_train : bool)
| NDArrayIter (data : option image) (batch_size : Z)
| PrefetchingIter (inner : data_iter).

(** [isinstance(det_iter, mx.io.PrefetchingIter)] *)
Definition is_prefetching (it : data_iter) : bool :=
  match it with PrefetchingIter _ => true | _ => false end.

(** Lines 60 and 61: an iterator that is no [PrefetchingIter] is
    wrapped in one. *)
Definition as_prefetching (det_iter : data_iter) : data_iter :=
  if negb (is_prefetching det_iter) then PrefetchingIter det_iter
  else det_iter.

(** The batch size an iterator feeds the network with. *)
Fixpoint iter_batch_size (it : data_iter) : Z :=
  match it with
  | DetIter _ b _ _ _ => b
  | NDArrayIter _ b => b
  | PrefetchingIter inner => iter_batch_size inner
  end.

(** *** The network module (mxnet) *)

Definition symbol : Type := string.
Definition params : Type := list (string * list scalar).

Inductive context : Type := Cpu | Gpu (dev : Z).

Record Module : Type := MkModule {
  mod_symbol : symbol;
  mod_context : option context;
  mod_data_shape : option (Z * Z * Z * Z);
  mod_params : option (params * params)
}.

(** *** The log of outside calls *)

Inductive event : Type :=
| ELoadCheckpoint (prefix : string) (epoch : Z)
| EModule (sym : symbol) (c : option context)
| EBind (data_shape : Z * Z * Z * Z)
| ESetParams
| EPredict (m : Module) (it : data_iter)
| EPrintDetectionTime (elapsed : scalar)
| EImread (name : string)
| EVideoCapture (name : string)
| ECapRead (name : string)
| ERectangle (pt1 pt2 : Z * Z) (color : Z * Z * Z) (thickness : Z)
| EPutText (text : label) (org : Z * Z) (color : Z * Z * Z)
| EImshow (winname : string) (im : image)
| EWaitKey (delay : option Z).

(** *** The environment: what the outside calls answer *)

Record Env : Type := MkEnv {
  (** [mx.model.load_checkpoint(prefix, epoch)] *)
  env_load_checkpoint : string -> Z -> result (symbol * params * params);
  (** [mx.mod.Module(symbol, label_names=None, context=ctx)] *)
  env_module : symbol -> option context -> result unit;
  (** [mod.bind(data_shapes=[('data', shape)])] *)
  env_bind : symbol -> Z * Z * Z * Z -> result unit;
  (** [mod.set_params(args, auxs)] *)
  env_set_params : symbol -> params -> params -> result unit;
  (** [mod.predict(det_iter).asnumpy()]: a tensor of shape
      [(slots, max_detections, 6)], given slot by slot. *)
  env_predict : Module -> data_iter -> result (list (list row));
  (** the [k]-th reading of [timeit.default_timer] *)
  env_timer : nat -> scalar;
  (** [cv2.imread(name)]: [None] when the file is not a readable image *)
  env_imread : string -> option image;
  (** [cv2.VideoCapture(name).read()[1]]: [None] when no frame is decoded *)
  env_cap_read : string -> option image;
  (** [cv2.getTextSize(text, FONT_HERSHEY_PLAIN, 1, 1)] *)
  env_getTextSize : label -> (Z * Z) * Z
}.

(** *** The store of numpy buffers *)

Definition loc : Type := positive.

Inductive ndarray : Type :=
| Tensor3 (slots : list (list row))
| Matrix (rows : list row)
| BoolVec (mask : list bool)
| IndexVec (ix : list nat).

(** A Python reference to an array: one that owns its buffer, or the
    view [base[i, :, :]] that shares the buffer of [base]. *)
Inductive aref : Type :=
| Whole (l : loc)
| Slot (base : loc) (i : nat).

Record world : Type := MkWorld {
  heap : gmap loc ndarray;
  log : list event;
  ticks : nat
}.

Definition empty_world : world :=
  {| heap := ∅; log := []; ticks := 0%nat |}.

(** *** Computations: state and exceptions *)

Definition M (A : Type) : Type := world -> result A * world.

Definition ret {A} (a : A) : M A := fun w => (Ok a, w).

Definition raise {A} (e : exn) : M A := fun w => (Raise e, w).

Definition bind {A B} (m : M A) (k : A -> M B) : M B :=
  fun w =>
    match m w with
    | (Ok a, w') => k a w'
    | (Raise e, w') => (Raise e, w')
    end.

Definition lift {A} (r : result A) : M A := fun w => (r, w).

Definition emit (ev : event) : M unit :=
  fun w => (Ok tt, {| heap := heap w; log := log w ++ [ev]; ticks := ticks w |}).

(** A new buffer, at a location that the store does not use yet. *)
Definition alloc (a : ndarray) : M loc :=
  fun w =>
    let l := fresh (dom (heap w)) in
    (Ok l, {| heap := <[l := a]> (heap w); log := log w; ticks := ticks w |}).

(** Reading the rows that a reference denotes. *)
Definition read_rows (r : aref) : M (list row) :=
  fun w =>
    match r with
    | Whole l =>
        match heap w !! l with
        | Some (Matrix rows) => (Ok rows, w)
        | _ => (Raise TypeError, w)
        end
    | Slot base i =>
        match heap w !! base with
        | Some (Tensor3 slots) =>
            match slots !! i with
            | Some rows => (Ok rows, w)
            | None => (Raise IndexError, w)
            end
        | _ => (Raise TypeError, w)
        end
    end.

(** [a.shape[0]] *)
Definition shape0 (l : loc) : M nat :=
  fun w =>
    match heap w !! l with
    | Some (Tensor3 slots) => (Ok (List.length slots), w)
    | Some (Matrix rows) => (Ok (List.length rows), w)
    | Some (BoolVec m) => (Ok (List.length m), w)
    | Some (IndexVec ix) => (Ok (List.length ix), w)
    | None => (Raise TypeError, w)
    end.

Definition timer (E : Env) : M scalar :=
  fun w => (Ok (env_timer E (ticks w)),
            {| heap := heap w; log := log w; ticks := S (ticks w) |}).

End World.

Export World.

Declare Scope run_scope.
Delimit Scope run_scope with run.
Notation "'do' x <- m ; k" := (bind m (fun x => k))
  (at level 10, x name, m at level 100, k at level 200,
   format "'[v' 'do'  x  <-  m ; '/' k ']'") : run_scope.
Notation "m ;; k" := (bind m (fun _ => k))
  (at level 100, k at level 200, only parsing, right associativity) : run_scope.
Local Open Scope run_scope.

(** ** The detector *)

Record Detector : Type := MkDetector {
  ctx : context;
  mod_ : Module;
  data_shape : Z;
  mean_pixels : scalar * scalar * scalar
}.

(** [Detector.__init__].  [mx.cpu()] of line 33 builds the context
    value [Cpu]; the calls that load, create, bind and fill the module
    (lines 34, 37, 39 and 40) go to the environment and are logged. *)
Definition init (E : Env) (sym : option symbol) (model_prefix : string)
    (epoch : Z) (data_shape : Z) (mean_pixels : scalar * scalar * scalar)
    (batch_size : Z) (ctx : option context) : M Detector :=
  let self_ctx := match ctx with None => Cpu | Some c => c end in
  emit (ELoadCheckpoint model_prefix epoch) ;;
  do checkpoint <- lift (env_load_checkpoint E model_prefix epoch) ;
  let '(load_symbol, args, auxs) := checkpoint in
  let sym := match sym with None => load_symbol | Some s => s end in
  emit (EModule sym ctx) ;;
  lift (env_module E sym ctx) ;;
  let shape := (batch_size, 3, data_shape, data_shape) in
  emit (EBind shape) ;;
  lift (env_bind E sym shape) ;;
  emit ESetParams ;;
  lift (env_set_params E sym args auxs) ;;
  ret {| ctx := self_ctx;
         mod_ := {| mod_symbol := sym; mod_context := ctx;
                    mod_data_shape := Some shape;
                    mod_params := Some (args, auxs) |};
         data_shape := data_shape;
         mean_pixels := mean_pixels |}.

(** One round of the loop of [detect], lines 88 to 90. *)
Definition filter_slot (detections : loc) (i : nat) : M aref :=
  let det := Slot detections i in
  do rows <- read_rows det ;
  do mask <- alloc (BoolVec (ge_zero_mask (column0 rows))) ;
  do ix <- alloc (IndexVec (np_where (ge_zero_mask (column0 rows)))) ;
  do kept <- lift (take_rows rows (np_where (ge_zero_mask (column0 rows)))) ;
  do res <- alloc (Matrix kept) ;
  ret (Whole res).

(** [for i in range(...)]: [result.append(res)] *)
Fixpoint detect_loop (detections : loc) (range : list nat) (result : list aref)
  : M (list aref) :=
  match range with
  | [] => ret result
  | i :: range' =>
      do res <- filter_slot detections i ;
      detect_loop detections range' (result ++ [res])
  end.

(** [Detector.detect] *)
Definition detect (E : Env) (self : Detector) (det_iter : data_iter)
    (show_timer : bool) : M (list aref) :=
  let det_iter := as_prefetching det_iter in
  do start <- timer E ;
  emit (EPredict (mod_ self) det_iter) ;;
  do out <- lift (env_predict E (mod_ self) det_iter) ;
  do detections <- alloc (Tensor3 out) ;
  do stop <- timer E ;
  let time_elapsed := SFsub 53 1024 stop start in
  (if show_timer then emit (EPrintDetectionTime time_elapsed) else ret tt) ;;
  do n <- shape0 detections ;
  detect_loop detections (List.seq 0 n) [].

(** [Detector.im_detect] *)
Definition im_detect (E : Env) (self : Detector) (im_list : paths)
    (root_dir extension : option string) (show_timer : bool) : M (list aref) :=
  let test_db := MkTestDB im_list root_dir extension in
  let test_iter := DetIter test_db 1 (data_shape self) (mean_pixels self) false in
  detect E self test_iter show_timer.

(** [Detector.im_detect_single] *)
Definition im_detect_single (E : Env) (self : Detector) (img : option image)
    (show_timer : bool) : M (list aref) :=
  let data := img in
  let test_iter := NDArrayIter data 1 in
  detect E self test_iter show_timer.

(** ** The visualizer *)

Definition color : Z * Z * Z := (0, 0, 192).
Definition color_white : Z * Z * Z := (255, 255, 255).
Definition color_label : Z * Z * Z := (128, 0, 0).

(** [map(int, bbox)] (a list, in Python 2); the first failing
    conversion raises. *)
Fixpoint map_int (xs : list scalar) : result (list Z) :=
  match xs with
  | [] => Ok []
  | x :: xs' =>
      match py_int x with
      | Raise e => Raise e
      | Ok z =>
          match map_int xs' with
          | Ok zs => Ok (z :: zs)
          | Raise e => Raise e
          end
      end
  end.

(** The body of [for det in dets], lines 158 to 171. *)
Definition draw_detection (E : Env) (xscale yscale : Z)
    (classes : list string) (thresh : scalar) (det : row) : M unit :=
  do cls_id <- lift (py_int (det_id det)) ;
  let bbox := [mul_int (det_xmin det) xscale; mul_int (det_ymin det) yscale;
               mul_int (det_xmax det) xscale; mul_int (det_ymax det) yscale] in
  let score := det_score det in
  if float_gt score thresh then
    do bbox <- lift (map_int bbox) ;
    match bbox with
    | [b0; b1; b2; b3] =>
        emit (ERectangle (b0, b1) (b2, b3) color 2) ;;
        do name <- lift (getitem classes cls_id) ;
        let text := Label name score in
        let '((tw, th), baseLine) := env_getTextSize E text in
        emit (ERectangle (b0, b1 - th) (b0 + tw, b1) color_label (-1)) ;;
        emit (EPutText text (b0, b1) color_white)
    | _ => raise IndexError
    end
  else ret tt.

Fixpoint draw_all (E : Env) (xscale yscale : Z) (classes : list string)
    (thresh : scalar) (dets : list row) : M unit :=
  match dets with
  | [] => ret tt
  | det :: dets' =>
      draw_detection E xscale yscale classes thresh det ;;
      draw_all E xscale yscale classes thresh dets'
  end.

(** [Detector.visualize_detection]; [dets] is the content of the array
    it is given.  The drawing calls act on [im]; the log keeps them in
    order, before the [EImshow] of [im]. *)
Definition visualize_detection (E : Env) (img : image) (dets : list row)
    (classes : list string) (thresh : scalar) : M unit :=
  let im := swap_channels img in
  let '(yscale, xscale, ch) := shape im in
  draw_all E xscale yscale classes thresh dets ;;
  emit (EImshow "result" im).

(** The defaults [classes=[]] and [thresh=0.6]. *)
Definition default_classes : list string := [].
Definition default_thresh : scalar := f64_lit 6 10.

(** [img[:, :, (0, 1, 2)] = img[:, :, (2, 1, 0)]]; [None] has no items. *)
Definition swap_in_place (img : option image) : M image :=
  match img with
  | None => raise TypeError
  | Some im => ret (swap_channels im)
  end.

(** [for k, det in enumerate(dets)], lines 197 to 201 and 206 to 210;
    the two loops differ in the argument of [cv2.waitKey] only. *)
Fixpoint show_loop (E : Env) (imgname : string) (dets : list aref)
    (classes : list string) (thresh : scalar) (delay : option Z) : M unit :=
  match dets with
  | [] => ret tt
  | det :: dets' =>
      emit (EImread imgname) ;;
      do img <- swap_in_place (env_imread E imgname) ;
      do rows <- read_rows det ;
      visualize_detection E img rows classes thresh ;;
      emit (EWaitKey delay) ;;
      show_loop E imgname dets' classes thresh delay
  end.

Definition unknown_extension : string :=
  "unknown file extention, only .png/.jpg/.mp4/.avi files are supported.".

(** [Detector.detect_and_visualize] *)
Definition detect_and_visualize (E : Env) (self : Detector) (imgname : string)
    (root_dir extension : option string) (classes : list string)
    (thresh : scalar) (show_timer : bool) : M unit :=
  if endswith imgname ".png" || endswith imgname ".jpg" then
    do dets <- im_detect E self (OnePath imgname) root_dir extension show_timer ;
    show_loop E imgname dets classes thresh None
  else if endswith imgname ".mp4" || endswith imgname ".avi" then
    emit (EVideoCapture imgname) ;;
    emit (ECapRead imgname) ;;
    let img := env_cap_read E imgname in
    do dets <- im_detect_single E self img false ;
    show_loop E imgname dets classes thresh (Some 1)
  else raise (IOError unknown_extension).

(** ** Sample data *)

Module Sample.

Definition r (i : Z) (s x1 y1 x2 y2 : Z) : row :=
  Row (f32_of_Z i) (f32_lit s 100) (f32_lit x1 10) (f32_lit y1 10)
      (f32_lit x2 10) (f32_lit y2 10).

(** [[1, 0.9, 0.1, 0.1, 0.5, 0.5]], [[-1, 0, 0, 0, 0, 0]] and
    [[2, 0.3, 0.2, 0.2, 0.6, 0.6]] as [float32] rows. *)
Definition row_a : row := r 1 90 1 1 5 5.
Definition row_pad : row := r (-1) 0 0 0 0 0.
Definition row_b : row := r 2 30 2 2 6 6.

Definition tensor : list row := [row_a; row_pad; row_b].

Definition black (h w : nat) : image := List.repeat (List.repeat (0, 0, 0) w) h.

Definition net : Module :=
  {| mod_symbol := "ssd"; mod_context := None;
     mod_data_shape := Some (1, 3, 300, 300); mod_params := Some ([], []) |}.

(** An environment: one checkpoint, [("ssd_300", 1)]; a network that
    answers [out] whatever it is fed; a still image and a video file. *)
Definition env (out : list (list row)) : Env :=
  {| env_load_checkpoint := fun prefix epoch =>
       if String.eqb prefix "ssd_300" && (epoch =? 1)
       then Ok ("ssd", [], [])
       else Raise (RuntimeFailure "no such checkpoint");
     env_module := fun _ _ => Ok tt;
     env_bind := fun _ _ => Ok tt;
     env_set_params := fun _ _ _ => Ok tt;
     env_predict := fun _ _ => Ok out;
     env_timer := fun k => f64_of_Z (Z.of_nat k);
     env_imread := fun name =>
       if String.eqb name "dog.jpg" then Some (black 4 6) else None;
     env_cap_read := fun name =>
       if String.eqb name "clip.mp4" then Some (black 2 2) else None;
     env_getTextSize := fun _ => ((40, 10), 2) |}.

(** The same, with a [cv2.imread] that decodes any file to one
    still image. *)
Definition env_any_image (out : list (list row)) : Env :=
  {| env_load_checkpoint := env_load_checkpoint (env out);
     env_module := env_module (env out);
     env_bind := env_bind (env out);
     env_set_params := env_set_params (env out);
     env_predict := env_predict (env out);
     env_timer := env_timer (env out);
     env_imread := fun _ => Some (black 4 6);
     env_cap_read := env_cap_read (env out);
     env_getTextSize := env_getTextSize (env out) |}.

Definition detector : Detector :=
  {| ctx := Cpu; mod_ := net; data_shape := 300;
     mean_pixels := (f64_of_Z 123, f64_of_Z 117, f64_of_Z 104) |}.

(** What constructing a detector from the checkpoint [("ssd_300", 1)]
    with batch size 8 gives, and the world it leaves. *)
Definition detector8 : Detector :=
  {| ctx := Cpu;
     mod_ := {| mod_symbol := "ssd"; mod_context := None;
                mod_data_shape := Some (8, 3, 300, 300);
                mod_params := Some ([], []) |};
     data_shape := 300;
     mean_pixels := (f64_of_Z 123, f64_of_Z 117, f64_of_Z 104) |}.

Definition world8 : world :=
  {| heap := ∅;
     log := [ELoadCheckpoint "ssd_300" 1; EModule "ssd" None;
             EBind (8, 3, 300, 300); ESetParams];
     ticks := 0%nat |}.

(** A store that holds one detection tensor, of two slots. *)
Definition tensor_loc : loc := 1%positive.

Definition world_with_tensor : world :=
  {| heap := {[ tensor_loc := Tensor3 [tensor; [row_pad]] ]};
     log := []; ticks := 0%nat |}.

End Sample.

(** ** Vocabulary of the statements *)

(** Every buffer of [w] is still there in [w'], with the same content. *)
Definition preserved (w w' : world) : Prop :=
  forall k, k ∈ dom (heap w) -> heap w' !! k = heap w !! k.

(** A computation that calls nothing outside: it leaves the log as it
    found it, whether it returns or raises. *)
Definition quiet {A} (m : M A) : Prop :=
  forall w, log (snd (m w)) = log w.

(** What [detect] prints when [show_timer] is set, from the two
    readings of the timer. *)
Definition timing_events (E : Env) (show_timer : bool) (w : world) : list event :=
  if show_timer
  then [EPrintDetectionTime
          (SFsub 53 1024 (env_timer E (S (ticks w))) (env_timer E (ticks w)))]
  else [].

(** The iterators handed to [mod.predict], in call order. *)
Definition predict_calls (evs : list event) : list data_iter :=
  List.flat_map
    (fun ev => match ev with EPredict _ it => [it] | _ => [] end) evs.

(** The boxes drawn: the corners of the outline rectangles (the ones of
    thickness 2, line 163), in drawing order. *)
Definition outline_boxes (evs : list event) : list ((Z * Z) * (Z * Z)) :=
  List.flat_map
    (fun ev =>
       match ev with
       | ERectangle pt1 pt2 _ thickness =>
           if thickness =? 2 then [(pt1, pt2)] else []
       | _ => []
       end) evs.

(** The labels written by [cv2.putText] and the images shown. *)
Definition texts (evs : list event) : list label :=
  List.flat_map
    (fun ev => match ev with EPutText text _ _ => [text] | _ => [] end) evs.

Definition shown (evs : list event) : list image :=
  List.flat_map
    (fun ev => match ev with EImshow _ im => [im] | _ => [] end) evs.

(** The scales that [visualize_detection] reads off [im.shape]. *)
Definition yscale_of (img : image) : Z := fst (fst (shape (swap_channels img))).
Definition xscale_of (img : image) : Z := snd (fst (shape (swap_channels img))).

(** A record's score strictly exceeds the threshold. *)
Definition above (thresh : scalar) (det : row) : bool :=
  float_gt (det_score det) thresh.

(** The box of a record: its corners scaled to the image and converted
    by [int], when the four conversions succeed. *)
Definition box_of (xscale yscale : Z) (det : row) : result ((Z * Z) * (Z * Z)) :=
  match map_int [mul_int (det_xmin det) xscale; mul_int (det_ymin det) yscale;
                 mul_int (det_xmax det) xscale; mul_int (det_ymax det) yscale]
  with
  | Ok [b0; b1; b2; b3] => Ok ((b0, b1), (b2, b3))
  | Ok _ => Raise IndexError
  | Raise e => Raise e
  end.

(** The exception at which a record makes the rendering stop, if any:
    its class id does not convert with [int]; or, its score being above
    the threshold, a corner of its box does not convert, or its class
    id is no index of [classes]. *)
Definition record_exn (xscale yscale : Z) (classes : list string)
    (thresh : scalar) (det : row) : option exn :=
  match py_int (det_id det) with
  | Raise e => Some e
  | Ok cls_id =>
      if above thresh det then
        match box_of xscale yscale det with
        | Raise e => Some e
        | Ok _ =>
            match getitem classes cls_id with
            | Raise e => Some e
            | Ok _ => None
            end
        end
      else None
  end.

(** The box that a record gets: its own box when its score is above
    the threshold and its id and corners convert, none otherwise. *)
Definition record_boxes (xscale yscale : Z) (thresh : scalar) (det : row)
  : list ((Z * Z) * (Z * Z)) :=
  match py_int (det_id det), box_of xscale yscale det with
  | Ok _, Ok box => if above thresh det then [box] else []
  | _, _ => []
  end.

(** No [int] conversion of the record raises. *)
Definition convertible (xscale yscale : Z) (det : row) : bool :=
  is_ok (py_int (det_id det)) && is_ok (box_of xscale yscale det).

(** The claim "a record is drawn if and only if its score strictly
    exceeds the threshold", for one call: the call draws as many boxes
    as there are records above the threshold. *)
Definition draws_all_above (E : Env) (img : image) (dets : list row)
    (classes : list string) (thresh : scalar) (w : world) : Prop :=
  let w' := snd (visualize_detection E img dets classes thresh w) in
  List.length (outline_boxes (List.skipn (List.length (log w)) (log w')))
  = List.length (List.filter (above thresh) dets).

(** The events of drawing on an image. *)
Definition drawing (ev : event) : bool :=
  match ev with
  | ERectangle _ _ _ _ | EPutText _ _ _ => true
  | _ => false
  end.

(** The events of the viewing loops: reading the file, drawing,
    showing, waiting for a key. *)
Definition viewing (ev : event) : bool :=
  match ev with
  | EImread _ | ERectangle _ _ _ _ | EPutText _ _ _ | EImshow _ _
  | EWaitKey _ => true
  | _ => false
  end.

(** What the viewing loop logs for one detection batch: the file is
    read, the boxes and labels [drawn], the image shown, the key
    awaited, in this order. *)
Definition view_block (imgname : string) (im : image) (delay : option Z)
    (drawn : list event) : list event :=
  EImread imgname :: drawn ++ [EImshow "result" im; EWaitKey delay].

(** The files read by [cv2.imread], the arguments of [cv2.waitKey],
    the detection times printed and the capture streams opened. *)
Definition imreads (evs : list event) : list string :=
  List.flat_map
    (fun ev => match ev with EImread name => [name] | _ => [] end) evs.

Definition waits (evs : list event) : list (option Z) :=
  List.flat_map
    (fun ev => match ev with EWaitKey delay => [delay] | _ => [] end) evs.

Definition prints (evs : list event) : list scalar :=
  List.flat_map
    (fun ev => match ev with EPrintDetectionTime t => [t] | _ => [] end) evs.

Definition captures (evs : list event) : list string :=
  List.flat_map
    (fun ev => match ev with EVideoCapture name => [name] | _ => [] end) evs.

(** Two worlds with the same store and the same clock, and two
    computations that cannot be told apart by result, store and clock:
    they may differ in what they write to the log. *)
Definition same_store (w1 w2 : world) : Prop :=
  heap w1 = heap w2 /\ ticks w1 = ticks w2.

Definition agree {A} (m1 m2 : M A) : Prop :=
  forall w1 w2,
    same_store w1 w2 ->
    fst (m1 w1) = fst (m2 w2) /\ same_store (snd (m1 w1)) (snd (m2 w2)).

(** The first column values that [>= 0] accepts, kind by kind. *)
Definition nonnegative_kind (x : scalar) : bool :=
  match x with
  | S754_zero _ => true
  | S754_infinity s => negb s
  | S754_nan => false
  | S754_finite s _ _ => negb s
  end.

(** The locations of a list of references that own their buffers. *)
Definition owned (refs : list aref) : list loc :=
  List.flat_map
    (fun r => match r with Whole l => [l] | Slot _ _ => [] end) refs.

(** ** Properties of the result filter *)

(** Closes [lg = log w ++ ?evs] once the log has been computed. *)
Ltac log_suffix :=
  first [ rewrite <- ?List.app_assoc; reflexivity
        | symmetry; apply List.app_nil_r ].

Lemma take_rows_where_from (pre det : list row) :
  take_rows (pre ++ det)
            (where_from (List.length pre) (ge_zero_mask (column0 det)))
  = Ok (filter_spec det).
Proof.
  revert pre. induction det as [|r det IH]; intros pre; [reflexivity|].
  assert (Hshift : take_rows (pre ++ r :: det)
             (where_from (S (List.length pre)) (ge_zero_mask (column0 det)))
           = Ok (filter_spec det)).
  { specialize (IH (pre ++ [r])).
    rewrite <- List.app_assoc, List.length_app, Nat.add_1_r in IH. exact IH. }
  cbn [column0 ge_zero_mask List.map where_from filter_spec List.filter].
  unfold valid_row at 1.
  destruct (ge_zero (det_id r)); [|exact Hshift].
  cbn [take_rows]. rewrite nth_error_app2 by lia.
  rewrite Nat.sub_diag. cbn [nth_error].
  fold (column0 det) (ge_zero_mask (column0 det)).
  now rewrite Hshift.
Qed.

Lemma result_filter_spec (det : list row) :
  result_filter det = Ok (filter_spec det).
Proof. exact (take_rows_where_from [] det). Qed.

Lemma filter_spec_sublist (det : list row) : sublist (filter_spec det) det.
Proof.
  induction det as [|r det IH]; [constructor|].
  unfold filter_spec in *. cbn [List.filter].
  destruct (valid_row r); now constructor.
Qed.

Lemma filter_spec_fixed (det : list row) :
  filter_spec (filter_spec det) = filter_spec det.
Proof.
  unfold filter_spec. induction det as [|r det IH]; [reflexivity|].
  cbn [List.filter]. destruct (valid_row r) eqn:Hr; [|exact IH].
  cbn [List.filter]. now rewrite Hr, IH.
Qed.

(** C1.  For every per-image tensor [det] of shape [(n, 6)], the
    filtering expression of [detect] returns, without raising, exactly
    the rows whose first column is [>= 0]: the same rows as
    [List.filter], so in their original order (a sublist of [det]), a
    row being kept if and only if it is in [det] with a first column
    [>= 0], and never more rows than [det] has.  On the rows
    [[1,0.9,0.1,0.1,0.5,0.5]], [[-1,0,0,0,0,0]], [[2,0.3,0.2,0.2,0.6,0.6]]
    it returns the first and the third. *)
Theorem result_filter_keeps_valid_rows :
  (forall det : list row,
      exists res : list row,
        result_filter det = Ok res
        /\ res = List.filter (fun r => ge_zero (det_id r)) det
        /\ (forall r, In r res <-> In r det /\ ge_zero (det_id r) = true)
        /\ sublist res det
        /\ (List.length res <= List.length det)%nat)
  /\ result_filter [Sample.row_a; Sample.row_pad; Sample.row_b]
     = Ok [Sample.row_a; Sample.row_b].
Proof.
  split; [|reflexivity].
  intros det. exists (filter_spec det).
  split; [apply result_filter_spec|].
  split; [reflexivity|].
  split; [intros r; unfold filter_spec; apply List.filter_In|].
  split; [apply filter_spec_sublist|].
  apply sublist_length, filter_spec_sublist.
Qed.

(** C3.  The result filter is idempotent: it returns some [res], and
    filtering [res] again returns [res] unchanged. *)
Theorem result_filter_idempotent (det : list row) :
  exists res : list row,
    result_filter det = Ok res /\ result_filter res = Ok res.
Proof.
  exists (filter_spec det). split; [apply result_filter_spec|].
  rewrite result_filter_spec. now rewrite filter_spec_fixed.
Qed.

(** ** The store during [detect] *)

Lemma preserved_refl (w : world) : preserved w w.
Proof. now intros k _. Qed.

Lemma preserved_dom (w w' : world) (k : loc) :
  preserved w w' -> k ∈ dom (heap w) -> k ∈ dom (heap w').
Proof.
  intros Hp Hk. apply elem_of_dom. rewrite (Hp k Hk). now apply elem_of_dom.
Qed.

Lemma preserved_trans (w1 w2 w3 : world) :
  preserved w1 w2 -> preserved w2 w3 -> preserved w1 w3.
Proof.
  intros H12 H23 k Hk. rewrite (H23 k), (H12 k); eauto using preserved_dom.
Qed.

Lemma alloc_spec (a : ndarray) (w : world) :
  exists l w',
    alloc a w = (Ok l, w')
    /\ (l ∉ dom (heap w))
    /\ heap w' !! l = Some a
    /\ preserved w w'
    /\ log w' = log w /\ ticks w' = ticks w.
Proof.
  eexists _, _. split; [reflexivity|]. cbn.
  split; [apply is_fresh|]. split; [apply lookup_insert_eq|].
  split; [|easy].
  intros k Hk. cbn. apply lookup_insert_ne. intros <-.
  now apply (is_fresh (dom (heap w))).
Qed.

(** One round of the loop, on a slot that exists: the kept rows go to
    a buffer that did not exist before, and no buffer is changed. *)
Lemma filter_slot_ok (w : world) (l : loc) (slots : list (list row))
    (i : nat) (rows : list row) :
  heap w !! l = Some (Tensor3 slots) ->
  slots !! i = Some rows ->
  exists l' w',
    filter_slot l i w = (Ok (Whole l'), w')
    /\ (l' ∉ dom (heap w))
    /\ heap w' !! l' = Some (Matrix (filter_spec rows))
    /\ preserved w w'
    /\ log w' = log w /\ ticks w' = ticks w.
Proof.
  intros Hl Hi. unfold filter_slot.
  unfold bind at 1. unfold read_rows. rewrite Hl, Hi.
  destruct (alloc_spec (BoolVec (ge_zero_mask (column0 rows))) w)
    as (l1 & w1 & E1 & F1 & _ & P1 & L1 & T1).
  unfold bind at 1. rewrite E1.
  destruct (alloc_spec (IndexVec (np_where (ge_zero_mask (column0 rows)))) w1)
    as (l2 & w2 & E2 & F2 & _ & P2 & L2 & T2).
  unfold bind at 1. rewrite E2.
  pose proof (result_filter_spec rows) as Hf. unfold result_filter in Hf.
  unfold bind at 1. unfold lift. rewrite Hf.
  destruct (alloc_spec (Matrix (filter_spec rows)) w2)
    as (l3 & w3 & E3 & F3 & G3 & P3 & L3 & T3).
  unfold bind, ret. rewrite E3.
  exists l3, w3. split; [reflexivity|].
  split. { intros Hk. apply F3. eauto using preserved_dom. }
  split; [exact G3|].
  split; [eauto using preserved_trans|].
  split; congruence.
Qed.

Lemma detect_loop_ok (l : loc) (slots : list (list row)) (n : nat) :
  forall (a : nat) (acc : list aref) (w : world),
    heap w !! l = Some (Tensor3 slots) ->
    (a + n <= List.length slots)%nat ->
    exists refs w',
      detect_loop l (List.seq a n) acc w = (Ok (acc ++ refs), w')
      /\ preserved w w'
      /\ log w' = log w /\ ticks w' = ticks w
      /\ List.length refs = n
      /\ forall j rows,
           slots !! (a + j)%nat = Some rows ->
           (j < n)%nat ->
           exists l',
             refs !! j = Some (Whole l')
             /\ (l' ∉ dom (heap w))
             /\ heap w' !! l' = Some (Matrix (filter_spec rows)).
Proof.
  induction n as [|n IH]; intros a acc w Hl Hlen.
  - exists [], w. cbn. rewrite List.app_nil_r.
    repeat split; auto using preserved_refl. intros; lia.
  - destruct (lookup_lt_is_Some_2 slots a) as [rows0 Hrows0]; [lia|].
    destruct (filter_slot_ok w l slots a rows0 Hl Hrows0)
      as (l1 & w1 & E1 & F1 & G1 & P1 & L1 & T1).
    assert (Hl1 : heap w1 !! l = Some (Tensor3 slots)).
    { rewrite (P1 l); [exact Hl|]. apply elem_of_dom. eauto. }
    destruct (IH (S a) (acc ++ [Whole l1]) w1 Hl1) as
      (refs & w' & E2 & P2 & L2 & T2 & N2 & R2); [lia|].
    exists (Whole l1 :: refs), w'.
    cbn [List.seq detect_loop]. unfold bind. rewrite E1, E2.
    rewrite <- List.app_assoc. cbn [List.app].
    split; [reflexivity|].
    split; [eauto using preserved_trans|].
    split; [congruence|]. split; [congruence|].
    split; [cbn; congruence|].
    intros [|j] rows Hrows Hj.
    + rewrite Nat.add_0_r in Hrows. assert (rows = rows0) as -> by congruence.
      exists l1. split; [reflexivity|]. split; [exact F1|].
      rewrite (P2 l1); [exact G1|]. apply elem_of_dom. eauto.
    + rewrite <- Nat.add_succ_comm in Hrows.
      destruct (R2 j rows Hrows) as (l' & Hr & Hf & Hg); [lia|].
      exists l'. split; [exact Hr|]. split; [|exact Hg].
      intros Hk. apply Hf. eauto using preserved_dom.
Qed.

(** C8.  The filtering loop of [detect] does not change its input: the
    tensor at [l] has the same content afterwards (as has every buffer
    that existed before), and the rows kept for slot [i] are in a
    buffer of their own, which is not the tensor's and did not exist
    before the loop. *)
Theorem result_filter_leaves_input (w : world) (l : loc)
    (slots : list (list row)) :
  heap w !! l = Some (Tensor3 slots) ->
  exists refs w',
    detect_loop l (List.seq 0 (List.length slots)) [] w = (Ok refs, w')
    /\ heap w' !! l = Some (Tensor3 slots)
    /\ preserved w w'
    /\ forall i rows,
         slots !! i = Some rows ->
         exists l',
           refs !! i = Some (Whole l')
           /\ l' <> l
           /\ (l' ∉ dom (heap w))
           /\ heap w' !! l' = Some (Matrix (filter_spec rows)).
Proof.
  intros Hl.
  destruct (detect_loop_ok l slots (List.length slots) 0%nat [] w Hl)
    as (refs & w' & E & P & _ & _ & _ & R); [lia|].
  assert (Hdom : l ∈ dom (heap w)) by (apply elem_of_dom; eauto).
  exists refs, w'. split; [exact E|].
  split; [rewrite (P l Hdom); exact Hl|].
  split; [exact P|].
  intros i rows Hrows.
  destruct (R i rows Hrows) as (l' & Hr & Hf & Hg).
  { apply lookup_lt_is_Some_1. eauto. }
  exists l'. repeat split; auto. intros ->. now apply Hf.
Qed.

Lemma result_filter_leaves_input_witness :
  exists refs w',
    detect_loop Sample.tensor_loc (List.seq 0 2) [] Sample.world_with_tensor
    = (Ok refs, w')
    /\ heap w' !! Sample.tensor_loc
       = Some (Tensor3 [Sample.tensor; [Sample.row_pad]])
    /\ preserved Sample.world_with_tensor w'
    /\ forall i rows,
         [Sample.tensor; [Sample.row_pad]] !! i = Some rows ->
         exists l',
           refs !! i = Some (Whole l')
           /\ l' <> Sample.tensor_loc
           /\ (l' ∉ dom (heap Sample.world_with_tensor))
           /\ heap w' !! l' = Some (Matrix (filter_spec rows)).
Proof.
  apply (result_filter_leaves_input Sample.world_with_tensor Sample.tensor_loc
           [Sample.tensor; [Sample.row_pad]]).
  vm_compute. reflexivity.
Defined.

(** *** The log during [detect] *)

Lemma quiet_ret {A} (a : A) : quiet (ret a).
Proof. now intros w. Qed.

Lemma quiet_lift {A} (r : result A) : quiet (lift r).
Proof. now intros w. Qed.

Lemma quiet_alloc (a : ndarray) : quiet (alloc a).
Proof. now intros w. Qed.

Lemma quiet_read_rows (r : aref) : quiet (read_rows r).
Proof. intros w. unfold read_rows. now repeat case_match. Qed.

Lemma quiet_shape0 (l : loc) : quiet (shape0 l).
Proof. intros w. unfold shape0. now repeat case_match. Qed.

Lemma quiet_bind {A B} (m : M A) (k : A -> M B) :
  quiet m -> (forall a, quiet (k a)) -> quiet (bind m k).
Proof.
  intros Hm Hk w. unfold bind. specialize (Hm w).
  destruct (m w) as [[a|e] w1]; cbn [snd] in *; [|exact Hm].
  now rewrite Hk.
Qed.

Create HintDb quiet.
#[local] Hint Resolve quiet_ret quiet_lift quiet_alloc quiet_read_rows
  quiet_shape0 : quiet.
#[local] Hint Extern 2 (quiet (bind _ _)) =>
  apply quiet_bind; [|intros ?] : quiet.

Lemma quiet_filter_slot (l : loc) (i : nat) : quiet (filter_slot l i).
Proof. unfold filter_slot. auto 10 with quiet. Qed.

Lemma quiet_detect_loop (l : loc) (range : list nat) :
  forall acc, quiet (detect_loop l range acc).
Proof.
  induction range as [|i range IH]; intros acc; cbn [detect_loop].
  - apply quiet_ret.
  - apply quiet_bind; [apply quiet_filter_slot|]. intros res. apply IH.
Qed.

(** Whatever the runtime answers, [detect] calls [predict] once, on the
    wrapped iterator, and draws nothing. *)
Lemma detect_log (E : Env) (self : Detector) (det_iter : data_iter)
    (show_timer : bool) (w : world) :
  exists evs,
    log (snd (detect E self det_iter show_timer w)) = log w ++ evs
    /\ predict_calls evs = [as_prefetching det_iter]
    /\ outline_boxes evs = [] /\ texts evs = [] /\ shown evs = [].
Proof.
  unfold detect.
  unfold bind at 1. unfold timer at 1.
  unfold bind at 1. unfold emit at 1.
  unfold bind at 1. unfold lift at 1.
  destruct (env_predict E (mod_ self) (as_prefetching det_iter)) as [out|e].
  2:{ eexists. cbn [snd log]. split; [reflexivity|]. now cbn. }
  unfold bind at 1. unfold alloc at 1. cbn [heap log ticks].
  unfold bind at 1. unfold timer at 1. cbn [heap log ticks].
  assert (Hq : forall l, quiet (do n <- shape0 l ; detect_loop l (List.seq 0 n) [])).
  { intros l. apply quiet_bind; [apply quiet_shape0|].
    intros n. apply quiet_detect_loop. }
  destruct show_timer; unfold bind at 1; unfold emit, ret; rewrite Hq;
    cbn [log]; eexists; (split; [log_suffix|]); now cbn.
Qed.

(** When the runtime answers with the tensor [out], [detect] returns
    one reference per slot, in slot order, each to a buffer holding
    the valid rows of its slot. *)
Lemma detect_run (E : Env) (self : Detector) (det_iter : data_iter)
    (show_timer : bool) (w : world) (out : list (list row)) :
  env_predict E (mod_ self) (as_prefetching det_iter) = Ok out ->
  exists refs w',
    detect E self det_iter show_timer w = (Ok refs, w')
    /\ log w' = log w ++ EPredict (mod_ self) (as_prefetching det_iter)
                         :: timing_events E show_timer w
    /\ List.length refs = List.length out
    /\ forall i slot,
         out !! i = Some slot ->
         exists l',
           refs !! i = Some (Whole l')
           /\ heap w' !! l' = Some (Matrix (filter_spec slot)).
Proof.
  intros Hp. unfold detect.
  unfold bind at 1. unfold timer at 1.
  unfold bind at 1. unfold emit at 1.
  unfold bind at 1. unfold lift at 1. rewrite Hp.
  unfold bind at 1. unfold alloc at 1. cbn [heap log ticks].
  unfold bind at 1. unfold timer at 1. cbn [heap log ticks].
  set (l := fresh (dom (heap w))).
  set (h := <[l := Tensor3 out]> (heap w)).
  assert (Hl : h !! l = Some (Tensor3 out)) by apply lookup_insert_eq.
  assert (Hloop : forall w0, heap w0 = h ->
            exists refs w',
              (do n <- shape0 l ; detect_loop l (List.seq 0 n) []) w0
              = (Ok refs, w')
              /\ log w' = log w0
              /\ List.length refs = List.length out
              /\ forall i slot,
                   out !! i = Some slot ->
                   exists l',
                     refs !! i = Some (Whole l')
                     /\ heap w' !! l' = Some (Matrix (filter_spec slot))).
  { intros w0 Hw0. unfold bind, shape0. rewrite Hw0, Hl.
    destruct (detect_loop_ok l out (List.length out) 0%nat [] w0)
      as (refs & w' & El & _ & Ll & _ & Nl & Rl); [congruence|lia|].
    exists refs, w'. split; [exact El|]. split; [exact Ll|]. split; [exact Nl|].
    intros i slot Hs. destruct (Rl i slot Hs) as (l' & ? & _ & ?).
    { apply lookup_lt_is_Some_1. eauto. }
    eauto. }
  unfold timing_events.
  destruct show_timer; unfold bind at 1; unfold emit, ret; cbn [heap log ticks];
    match goal with
    | |- context [bind (shape0 l) _ ?w0] =>
        destruct (Hloop w0 eq_refl) as (refs & w' & El & Ll & Nl & Rl)
    end;
    exists refs, w'; rewrite El, Ll; cbn [log];
    (split; [reflexivity|]); (split; [log_suffix|]); auto.
Qed.

(** C2.  When the runtime answers the iterator with a tensor [out] that
    has one slot per submitted image, [N] slots in submission order,
    [detect] returns exactly [N] detection batches, the [i]-th being
    the valid rows of the [i]-th slot. *)
Theorem detect_one_batch_per_image (E : Env) (self : Detector)
    (det_iter : data_iter) (show_timer : bool) (w : world) (N : nat)
    (out : list (list row)) :
  env_predict E (mod_ self) (as_prefetching det_iter) = Ok out ->
  List.length out = N ->
  exists refs w',
    detect E self det_iter show_timer w = (Ok refs, w')
    /\ List.length refs = N
    /\ forall i slot,
         out !! i = Some slot ->
         exists l',
           refs !! i = Some (Whole l')
           /\ heap w' !! l' = Some (Matrix (filter_spec slot)).
Proof.
  intros Hp HN.
  destruct (detect_run E self det_iter show_timer w out Hp)
    as (refs & w' & Hd & _ & Hlen & Hslots).
  exists refs, w'. split; [exact Hd|]. split; [congruence|exact Hslots].
Qed.

Lemma detect_one_batch_per_image_witness :
  exists refs w',
    detect (Sample.env [Sample.tensor; [Sample.row_pad]]) Sample.detector
      (DetIter (MkTestDB (PathList ["a.jpg"; "b.jpg"]) None None) 1 300
         (mean_pixels Sample.detector) false)
      true empty_world
    = (Ok refs, w')
    /\ List.length refs = 2%nat
    /\ forall i slot,
         [Sample.tensor; [Sample.row_pad]] !! i = Some slot ->
         exists l',
           refs !! i = Some (Whole l')
           /\ heap w' !! l' = Some (Matrix (filter_spec slot)).
Proof.
  apply (detect_one_batch_per_image
           (Sample.env [Sample.tensor; [Sample.row_pad]]) Sample.detector
           (DetIter (MkTestDB (PathList ["a.jpg"; "b.jpg"]) None None) 1 300
              (mean_pixels Sample.detector) false)
           true empty_world 2 [Sample.tensor; [Sample.row_pad]]);
    reflexivity.
Defined.

(** ** Properties of the visualizer *)

Lemma getitem_nil {A} (i : Z) : getitem (@nil A) i = Raise IndexError.
Proof.
  unfold getitem.
  repeat match goal with
         | |- context [if ?b then _ else _] => destruct b
         end;
    try reflexivity;
    match goal with
    | |- context [nth_error [] ?n] => destruct n
    end; reflexivity.
Qed.

(** What one record adds to the log: nothing when its score is not
    above the threshold; otherwise its box, unless an [int] conversion
    raised before the box was drawn. *)
Lemma draw_detection_boxes (E : Env) (xs ys : Z) (classes : list string)
    (thresh : scalar) (det : row) (w : world) :
  exists evs,
    log (snd (draw_detection E xs ys classes thresh det w)) = log w ++ evs
    /\ (above thresh det = false -> evs = [])
    /\ (above thresh det = true ->
        (outline_boxes evs = []
         /\ is_ok (fst (draw_detection E xs ys classes thresh det w)) = false)
        \/ exists box, box_of xs ys det = Ok box /\ outline_boxes evs = [box]).
Proof.
  unfold draw_detection, above, box_of, bind, lift, emit, ret, raise.
  destruct (py_int (det_id det)) as [cls|e]; cbn [fst snd log].
  2:{ exists []. split; [log_suffix|]. split; [easy|]. intros _. now left. }
  destruct (float_gt (det_score det) thresh); cbn [fst snd log].
  2:{ exists []. split; [log_suffix|]. split; easy. }
  destruct (map_int _) as [[|b0 [|b1 [|b2 [|b3 [|b4 bs]]]]]|e];
    cbn [fst snd log];
    try (exists []; split; [log_suffix|]; split; [easy|]; intros _; now left).
  destruct (getitem classes cls) as [name|e]; cbn [fst snd log].
  - destruct (env_getTextSize E _) as [[tw th] baseLine]; cbn [fst snd log].
    eexists. split; [log_suffix|]. split; [easy|]. intros _. right.
    eexists. split; reflexivity.
  - eexists. split; [log_suffix|]. split; [easy|]. intros _. right.
    eexists. split; reflexivity.
Qed.

Lemma outline_boxes_app (evs1 evs2 : list event) :
  outline_boxes (evs1 ++ evs2) = outline_boxes evs1 ++ outline_boxes evs2.
Proof. apply List.flat_map_app. Qed.

Lemma draw_all_boxes (E : Env) (xs ys : Z) (classes : list string)
    (thresh : scalar) (dets : list row) :
  forall w : world,
  exists evs drawn rest,
    log (snd (draw_all E xs ys classes thresh dets w)) = log w ++ evs
    /\ List.filter (above thresh) dets = drawn ++ rest
    /\ Forall2 (fun det box => box_of xs ys det = Ok box)
               drawn (outline_boxes evs)
    /\ match fst (draw_all E xs ys classes thresh dets w) with
       | Ok _ => rest = []
       | Raise _ => True
       end.
Proof.
  induction dets as [|det dets IH]; intros w.
  - exists [], [], []. cbn. rewrite List.app_nil_r. repeat split; constructor.
  - cbn [draw_all List.filter]. unfold bind at 1 2.
    destruct (draw_detection_boxes E xs ys classes thresh det w)
      as (evs1 & L1 & Hlow & Hhigh).
    destruct (draw_detection E xs ys classes thresh det w) as [[[]|e] w1] eqn:Hd;
      cbn [fst snd] in *.
    + destruct (IH w1) as (evs2 & drawn & rest & L2 & Hf & Hb & Hr).
      exists (evs1 ++ evs2).
      destruct (above thresh det).
      * destruct Hhigh as [[_ Hno]|(box & Hbox & Ho)]; [reflexivity|discriminate|].
        exists (det :: drawn), rest.
        split; [rewrite L2, L1; log_suffix|].
        split; [cbn; now rewrite Hf|].
        split; [|exact Hr].
        rewrite outline_boxes_app, Ho. now constructor.
      * exists drawn, rest.
        split; [rewrite L2, L1; log_suffix|].
        split; [exact Hf|]. split; [|exact Hr].
        rewrite outline_boxes_app, (Hlow eq_refl). exact Hb.
    + exists evs1. destruct (above thresh det).
      * destruct Hhigh as [[Ho _]|(box & Hbox & Ho)]; [reflexivity| |].
        -- exists [], (det :: List.filter (above thresh) dets).
           rewrite Ho. repeat split; auto; constructor.
        -- exists [det], (List.filter (above thresh) dets).
           rewrite Ho. repeat split; auto.
      * exists [], (List.filter (above thresh) dets).
        pose proof (Hlow eq_refl) as ->. repeat split; auto; constructor.
Qed.

Lemma texts_app (evs1 evs2 : list event) :
  texts (evs1 ++ evs2) = texts evs1 ++ texts evs2.
Proof. apply List.flat_map_app. Qed.

Lemma shown_app (evs1 evs2 : list event) :
  shown (evs1 ++ evs2) = shown evs1 ++ shown evs2.
Proof. apply List.flat_map_app. Qed.

(** One record, when [classes] is empty: no label is written; above
    the threshold the record raises, and it is the lookup that raises
    unless an [int] conversion did. *)
Lemma draw_detection_no_classes (E : Env) (xs ys : Z) (thresh : scalar)
    (det : row) (w : world) :
  exists evs,
    log (snd (draw_detection E xs ys [] thresh det w)) = log w ++ evs
    /\ texts evs = [] /\ shown evs = []
    /\ (above thresh det = true ->
        exists e,
          fst (draw_detection E xs ys [] thresh det w) = Raise e
          /\ (convertible xs ys det = true -> e = IndexError))
    /\ (above thresh det = false ->
        forall e,
          fst (draw_detection E xs ys [] thresh det w) = Raise e ->
          convertible xs ys det = false).
Proof.
  assert (Hfin : forall (r : result unit) (lg evs : list event) (hi cv : bool),
            lg = log w ++ evs ->
            texts evs = [] -> shown evs = [] ->
            (hi = true -> r = Raise IndexError \/ (exists e, r = Raise e) /\ cv = false) ->
            (hi = false -> is_ok r = true \/ cv = false) ->
            lg = log w ++ evs /\ texts evs = [] /\ shown evs = []
            /\ (hi = true -> exists e, r = Raise e /\ (cv = true -> e = IndexError))
            /\ (hi = false -> forall e, r = Raise e -> cv = false)).
  { intros r lg evs hi cv Hl Ht Hs Hhi Hlo. repeat (split; [assumption|]). split.
    - intros Hh. destruct (Hhi Hh) as [->|[[e ->] ->]]; eauto.
      exists e. split; [reflexivity|]. discriminate.
    - intros Hh e ->. destruct (Hlo Hh) as [Hok|Hcv]; [discriminate Hok|exact Hcv]. }
  unfold draw_detection, above, convertible, box_of, bind, lift, emit, ret, raise.
  destruct (py_int (det_id det)) as [cls|e]; cbn [fst snd log is_ok andb].
  2:{ exists []. apply Hfin; [log_suffix|reflexivity|reflexivity|eauto|eauto]. }
  destruct (float_gt (det_score det) thresh); cbn [fst snd log].
  2:{ exists []. apply Hfin; [log_suffix|reflexivity|reflexivity|discriminate|eauto]. }
  destruct (map_int _) as [[|b0 [|b1 [|b2 [|b3 [|b4 bs]]]]]|e];
    cbn [fst snd log is_ok];
    try (exists []; apply Hfin;
         [log_suffix|reflexivity|reflexivity|eauto|discriminate]; fail).
  rewrite getitem_nil. cbn [fst snd log].
  eexists. apply Hfin; [log_suffix|reflexivity|reflexivity|eauto|discriminate].
Qed.

Lemma draw_all_no_classes (E : Env) (xs ys : Z) (thresh : scalar)
    (dets : list row) :
  forall w : world,
    Exists (fun det => above thresh det = true) dets ->
    exists e w' evs,
      draw_all E xs ys [] thresh dets w = (Raise e, w')
      /\ log w' = log w ++ evs
      /\ texts evs = [] /\ shown evs = []
      /\ (Forall (fun det => convertible xs ys det = true) dets ->
          e = IndexError).
Proof.
  induction dets as [|det dets IH]; intros w Hex; [inversion Hex|].
  destruct (draw_detection_no_classes E xs ys thresh det w)
    as (evs1 & L1 & T1 & S1 & Hhigh & Hlow).
  cbn [draw_all]. unfold bind at 1.
  destruct (draw_detection E xs ys [] thresh det w) as [[[]|e] w1] eqn:Hd;
    cbn [fst snd] in *.
  - destruct (above thresh det) eqn:Ha.
    { destruct (Hhigh eq_refl) as (e & He & _). discriminate. }
    assert (Hex' : Exists (fun det => above thresh det = true) dets).
    { inversion Hex; subst; [congruence|assumption]. }
    destruct (IH w1 Hex') as (e & w' & evs2 & E2 & L2 & T2 & S2 & Hc).
    exists e, w', (evs1 ++ evs2).
    split; [exact E2|]. split; [rewrite L2, L1; log_suffix|].
    split; [now rewrite texts_app, T1, T2|].
    split; [now rewrite shown_app, S1, S2|].
    intros Hall. apply Hc. now inversion Hall.
  - exists e, w1, evs1. repeat split; auto.
    intros Hall. inversion Hall as [|? ? Hconv _]; subst.
    destruct (above thresh det) eqn:Ha.
    + destruct (Hhigh eq_refl) as (e' & He' & Hidx).
      assert (e' = e) as -> by congruence. auto.
    + rewrite (Hlow eq_refl e eq_refl) in Hconv. discriminate.
Qed.

(** One record, exactly: whether it raises and what it draws. *)
Lemma draw_detection_outcome (E : Env) (xs ys : Z) (classes : list string)
    (thresh : scalar) (det : row) (w : world) :
  exists evs,
    draw_detection E xs ys classes thresh det w
    = (match record_exn xs ys classes thresh det with
       | None => Ok tt
       | Some e => Raise e
       end,
       {| heap := heap w; log := log w ++ evs; ticks := ticks w |})
    /\ outline_boxes evs = record_boxes xs ys thresh det.
Proof.
  assert (Hnil : w = {| heap := heap w; log := log w ++ []; ticks := ticks w |}).
  { rewrite List.app_nil_r. now destruct w. }
  unfold draw_detection, record_exn, record_boxes, above, box_of,
    bind, lift, emit, ret, raise.
  destruct (py_int (det_id det)) as [cls|e].
  2:{ exists []. split; [now rewrite <- Hnil|reflexivity]. }
  destruct (float_gt (det_score det) thresh).
  2:{ exists []. split; [now rewrite <- Hnil|].
      now destruct (map_int _) as [[|b0 [|b1 [|b2 [|b3 [|b4 bs]]]]]|e]. }
  destruct (map_int _) as [[|b0 [|b1 [|b2 [|b3 [|b4 bs]]]]]|e];
    try (exists []; split; [now rewrite <- Hnil|reflexivity]).
  destruct (getitem classes cls) as [name|e]; cbn [heap log ticks].
  - destruct (env_getTextSize E _) as [[tw th] baseLine]; cbn [heap log ticks].
    eexists. split; [rewrite <- !List.app_assoc; reflexivity|reflexivity].
  - eexists. split; reflexivity.
Qed.

(** All records, exactly: either none raises, the loop returns and the
    boxes drawn are those of all records; or the loop raises what the
    first raising record raises, and the boxes drawn are those of the
    records up to that one. *)
Lemma draw_all_outcome (E : Env) (xs ys : Z) (classes : list string)
    (thresh : scalar) (dets : list row) :
  forall w : world,
  exists evs,
    snd (draw_all E xs ys classes thresh dets w)
    = {| heap := heap w; log := log w ++ evs; ticks := ticks w |}
    /\ ((Forall (fun d => record_exn xs ys classes thresh d = None) dets
         /\ fst (draw_all E xs ys classes thresh dets w) = Ok tt
         /\ outline_boxes evs = List.flat_map (record_boxes xs ys thresh) dets)
        \/ exists pre det post e,
             dets = pre ++ det :: post
             /\ Forall (fun d => record_exn xs ys classes thresh d = None) pre
             /\ record_exn xs ys classes thresh det = Some e
             /\ fst (draw_all E xs ys classes thresh dets w) = Raise e
             /\ outline_boxes evs
                = List.flat_map (record_boxes xs ys thresh) (pre ++ [det])).
Proof.
  induction dets as [|det dets IH]; intros w.
  - exists []. cbn. rewrite List.app_nil_r. split; [now destruct w|].
    left. repeat split. constructor.
  - cbn [draw_all]. unfold bind at 1 2 3.
    destruct (draw_detection_outcome E xs ys classes thresh det w)
      as (evs1 & Hd & Hb1).
    rewrite Hd. destruct (record_exn xs ys classes thresh det) as [e|] eqn:Hx.
    + exists evs1. cbn [fst snd]. split; [reflexivity|].
      right. exists [], det, dets, e. cbn [List.app List.flat_map].
      rewrite List.app_nil_r. repeat split; auto.
    + destruct (IH {| heap := heap w; log := log w ++ evs1; ticks := ticks w |})
        as (evs2 & Hs & Hcase).
      exists (evs1 ++ evs2). rewrite Hs. cbn [heap log ticks].
      split; [now rewrite List.app_assoc|].
      rewrite outline_boxes_app, Hb1.
      destruct Hcase as [(Hall & Hok & Hb2)|(pre & d & post & e & -> & Hpre & Hd' & Hr & Hb2)].
      * left. split; [now constructor|]. split; [exact Hok|].
        cbn [List.flat_map]. now rewrite Hb2.
      * right. exists (det :: pre), d, post, e.
        split; [reflexivity|]. split; [now constructor|].
        split; [exact Hd'|]. split; [exact Hr|].
        cbn [List.app List.flat_map]. now rewrite Hb2.
Qed.

(** C5, amended.  In [visualize_detection] a record is drawn if and
    only if its score strictly exceeds the threshold and the call has
    not raised before drawing it.  The call raises at the first record
    that fails (its class id does not convert with [int], or, the score
    being above the threshold, a corner of its box does not convert or
    its class id is no index of [classes]) and raises what that record
    raises; the boxes drawn are then those of the records above the
    threshold up to that one, and nothing after it is drawn.  When no
    record fails the call returns normally and the boxes drawn are
    those of exactly the records above the threshold, in order.  With
    the threshold 0.6 and a class list that names class 0, the record
    of score 0.59 is not drawn and the one of score 0.61 is. *)
Theorem boxes_drawn_follow_threshold :
  (forall (E : Env) (img : image) (dets : list row) (classes : list string)
          (thresh : scalar) (w : world),
      exists evs drawn rest,
        log (snd (visualize_detection E img dets classes thresh w))
        = log w ++ evs
        /\ List.filter (above thresh) dets = drawn ++ rest
        /\ Forall2
             (fun det box => box_of (xscale_of img) (yscale_of img) det = Ok box)
             drawn (outline_boxes evs)
        /\ match fst (visualize_detection E img dets classes thresh w) with
           | Ok _ => rest = []
           | Raise _ => True
           end
        /\ ((Forall
               (fun d =>
                  record_exn (xscale_of img) (yscale_of img) classes thresh d
                  = None) dets
             /\ fst (visualize_detection E img dets classes thresh w) = Ok tt
             /\ outline_boxes evs
                = List.flat_map
                    (record_boxes (xscale_of img) (yscale_of img) thresh) dets)
            \/ exists pre det post e,
                 dets = pre ++ det :: post
                 /\ Forall
                      (fun d =>
                         record_exn (xscale_of img) (yscale_of img) classes
                           thresh d = None) pre
                 /\ record_exn (xscale_of img) (yscale_of img) classes thresh
                      det = Some e
                 /\ fst (visualize_detection E img dets classes thresh w)
                    = Raise e
                 /\ outline_boxes evs
                    = List.flat_map
                        (record_boxes (xscale_of img) (yscale_of img) thresh)
                        (pre ++ [det])))
  /\ (above default_thresh (Sample.r 0 59 1 1 5 5) = false
      /\ above default_thresh (Sample.r 0 61 2 2 6 6) = true
      /\ outline_boxes
           (log (snd (visualize_detection (Sample.env []) (Sample.black 100 100)
                        [Sample.r 0 59 1 1 5 5; Sample.r 0 61 2 2 6 6]
                        ["person"] default_thresh empty_world)))
         = [((20, 20), (60, 60))]).
Proof.
  split; [|vm_compute; repeat split].
  intros E img dets classes thresh w.
  unfold visualize_detection, xscale_of, yscale_of, shape. cbn [fst snd].
  set (ys := Z.of_nat (List.length (swap_channels img))).
  set (xs := Z.of_nat (List.length (List.hd [] (swap_channels img)))).
  destruct (draw_all_boxes E xs ys classes thresh dets w)
    as (evs & drawn & rest & L & Hf & Hb & Hr).
  destruct (draw_all_outcome E xs ys classes thresh dets w)
    as (evs' & Hs & Hcase).
  assert (evs' = evs) as ->.
  { rewrite Hs in L. cbn [log] in L. now apply List.app_inv_head in L. }
  clear Hs. unfold bind.
  destruct (draw_all E xs ys classes thresh dets w) as [[[]|e] w1];
    cbn [fst snd] in *.
  - exists (evs ++ [EImshow "result" (swap_channels img)]), drawn, rest.
    unfold emit. cbn [fst snd log]. rewrite L.
    assert (Ho : outline_boxes (evs ++ [EImshow "result" (swap_channels img)])
                 = outline_boxes evs).
    { rewrite outline_boxes_app. cbn. now rewrite List.app_nil_r. }
    rewrite Ho.
    split; [log_suffix|]. split; [exact Hf|]. split; [exact Hb|].
    split; [exact Hr|].
    destruct Hcase as [(Hall & _ & Hbx)|(pre & d & post & e & _ & _ & _ & He & _)];
      [|discriminate He].
    left. auto.
  - exists evs, drawn, rest. repeat (split; [assumption|]).
    destruct Hcase as [(_ & He & _)|Hstop]; [discriminate He|].
    right. exact Hstop.
Qed.

(** C5 as it is stated fails: with the default [classes] the call
    raises at the first record above the threshold, and the second
    record, whose score 0.9 is above 0.6, is never drawn. *)
Lemma later_record_above_threshold_not_drawn :
  ~ (forall (E : Env) (img : image) (dets : list row) (classes : list string)
            (thresh : scalar) (w : world),
        draws_all_above E img dets classes thresh w).
Proof.
  intros H.
  specialize (H (Sample.env []) (Sample.black 100 100)
                [Sample.r 0 90 1 1 5 5; Sample.r 0 90 2 2 6 6]
                default_classes default_thresh empty_world).
  vm_compute in H. discriminate H.
Qed.

(** C10.  With the default, empty [classes], no index is in bounds, and
    a call of [visualize_detection] in which some record's score
    strictly exceeds the threshold raises: no label is written and
    nothing is shown; the exception is the [IndexError] of the lookup
    whenever no [int] conversion raises. *)
Theorem empty_classes_fail_above_threshold (E : Env) (img : image)
    (dets : list row) (thresh : scalar) (w : world) :
  Exists (fun det => above thresh det = true) dets ->
  (forall cls_id : Z, getitem default_classes cls_id = Raise IndexError)
  /\ exists e w' evs,
       visualize_detection E img dets default_classes thresh w = (Raise e, w')
       /\ log w' = log w ++ evs
       /\ texts evs = [] /\ shown evs = []
       /\ (Forall (fun det =>
                     convertible (xscale_of img) (yscale_of img) det = true) dets ->
           e = IndexError).
Proof.
  intros Hex. split; [intros i; apply getitem_nil|].
  unfold visualize_detection, default_classes, xscale_of, yscale_of, shape.
  cbn [fst snd].
  set (ys := Z.of_nat (List.length (swap_channels img))).
  set (xs := Z.of_nat (List.length (List.hd [] (swap_channels img)))).
  destruct (draw_all_no_classes E xs ys thresh dets w Hex)
    as (e & w' & evs & Hd & L & T & S & Hc).
  exists e, w', evs. unfold bind. rewrite Hd. auto.
Qed.

Lemma empty_classes_fail_above_threshold_witness :
  exists e w' evs,
    visualize_detection (Sample.env []) (Sample.black 100 100)
      [Sample.r 0 59 1 1 5 5; Sample.r 0 61 2 2 6 6]
      default_classes default_thresh empty_world = (Raise e, w')
    /\ log w' = log empty_world ++ evs
    /\ texts evs = [] /\ shown evs = []
    /\ (Forall (fun det =>
                  convertible (xscale_of (Sample.black 100 100))
                              (yscale_of (Sample.black 100 100)) det = true)
               [Sample.r 0 59 1 1 5 5; Sample.r 0 61 2 2 6 6] ->
        e = IndexError).
Proof.
  apply (empty_classes_fail_above_threshold (Sample.env []) (Sample.black 100 100)
           [Sample.r 0 59 1 1 5 5; Sample.r 0 61 2 2 6 6]
           default_thresh empty_world).
  apply Exists_cons_tl, Exists_cons_hd. vm_compute. reflexivity.
Defined.

(** ** Properties of the entry points *)

Lemma init_fields (E : Env) (sym : option symbol) (model_prefix : string)
    (epoch ds : Z) (mp : scalar * scalar * scalar) (b : Z)
    (c : option context) (w0 w1 : world) (self : Detector) :
  init E sym model_prefix epoch ds mp b c w0 = (Ok self, w1) ->
  data_shape self = ds
  /\ mean_pixels self = mp
  /\ mod_data_shape (mod_ self) = Some (b, 3, ds, ds).
Proof.
  unfold init, bind, emit, lift, ret.
  destruct (env_load_checkpoint E model_prefix epoch) as [[[ls args] auxs]|e];
    [|discriminate].
  destruct (env_module E _ _); [|discriminate].
  destruct (env_bind E _ _); [|discriminate].
  destruct (env_set_params E _ _ _); [|discriminate].
  intros [= <- _]. now cbn.
Qed.

(** C7.  When loading the checkpoint of [model_prefix] raises, the
    construction raises the same exception at once: the checkpoint is
    asked for once, nothing is bound, and no [Detector] is returned on
    which [detect] could be called. *)
Theorem init_fails_without_checkpoint (E : Env) (sym : option symbol)
    (model_prefix : string) (epoch ds : Z) (mp : scalar * scalar * scalar)
    (b : Z) (c : option context) (w : world) (e : exn) :
  env_load_checkpoint E model_prefix epoch = Raise e ->
  init E sym model_prefix epoch ds mp b c w
  = (Raise e,
     {| heap := heap w;
        log := log w ++ [ELoadCheckpoint model_prefix epoch];
        ticks := ticks w |}).
Proof.
  intros Hload. unfold init, bind, emit, lift. now rewrite Hload.
Qed.

Lemma init_fails_without_checkpoint_witness :
  init (Sample.env []) None "missing" 0 300
       (f64_of_Z 123, f64_of_Z 117, f64_of_Z 104) 1 None empty_world
  = (Raise (RuntimeFailure "no such checkpoint"),
     {| heap := heap empty_world;
        log := log empty_world ++ [ELoadCheckpoint "missing" 0];
        ticks := ticks empty_world |}).
Proof.
  apply (init_fails_without_checkpoint (Sample.env []) None "missing" 0 300).
  reflexivity.
Defined.

(** C9.  For a detector constructed with any [batch_size] [b], so bound
    to the shape [(b, 3, data_shape, data_shape)], [im_detect] hands the
    runtime exactly one iterator, a [DetIter] built with batch size 1:
    [b] does not appear in it. *)
Theorem im_detect_batch_size_one (E : Env) (sym : option symbol)
    (model_prefix : string) (epoch ds : Z) (mp : scalar * scalar * scalar)
    (b : Z) (c : option context) (w0 w1 : world) (self : Detector)
    (im_list : paths) (root_dir extension : option string)
    (show_timer : bool) :
  init E sym model_prefix epoch ds mp b c w0 = (Ok self, w1) ->
  mod_data_shape (mod_ self) = Some (b, 3, ds, ds)
  /\ exists evs,
       log (snd (im_detect E self im_list root_dir extension show_timer w1))
       = log w1 ++ evs
       /\ predict_calls evs
          = [PrefetchingIter
               (DetIter (MkTestDB im_list root_dir extension) 1 ds mp false)]
       /\ Forall (fun it => iter_batch_size it = 1) (predict_calls evs).
Proof.
  intros Hinit.
  destruct (init_fields _ _ _ _ _ _ _ _ _ _ _ Hinit) as (Hds & Hmp & Hshape).
  split; [exact Hshape|]. unfold im_detect. rewrite Hds, Hmp.
  destruct (detect_log E self
              (DetIter (MkTestDB im_list root_dir extension) 1 ds mp false)
              show_timer w1) as (evs & Hlog & Hcalls & _).
  exists evs. split; [exact Hlog|]. rewrite Hcalls.
  split; [reflexivity|]. now repeat constructor.
Qed.

Lemma im_detect_batch_size_one_witness :
  mod_data_shape (mod_ Sample.detector8) = Some (8, 3, 300, 300)
  /\ exists evs,
       log (snd (im_detect (Sample.env [Sample.tensor]) Sample.detector8
                   (PathList ["a.jpg"; "b.jpg"]) None None false Sample.world8))
       = log Sample.world8 ++ evs
       /\ predict_calls evs
          = [PrefetchingIter
               (DetIter (MkTestDB (PathList ["a.jpg"; "b.jpg"]) None None) 1 300
                  (f64_of_Z 123, f64_of_Z 117, f64_of_Z 104) false)]
       /\ Forall (fun it => iter_batch_size it = 1) (predict_calls evs).
Proof.
  apply (im_detect_batch_size_one (Sample.env [Sample.tensor]) None "ssd_300"
           1 300 (f64_of_Z 123, f64_of_Z 117, f64_of_Z 104) 8 None empty_world
           Sample.world8 Sample.detector8).
  reflexivity.
Defined.

(** C4.  A file name that ends in none of [.png], [.jpg], [.mp4] and
    [.avi] makes [detect_and_visualize] raise the [IOError] of line 212
    and nothing else: the world is as before, so nothing was detected
    and nothing was drawn. *)
Theorem unsupported_extension_raises (E : Env) (self : Detector)
    (imgname : string) (root_dir extension : option string)
    (classes : list string) (thresh : scalar) (show_timer : bool)
    (w : world) :
  endswith imgname ".png" = false ->
  endswith imgname ".jpg" = false ->
  endswith imgname ".mp4" = false ->
  endswith imgname ".avi" = false ->
  detect_and_visualize E self imgname root_dir extension classes thresh
    show_timer w
  = (Raise (IOError unknown_extension), w).
Proof.
  intros Hpng Hjpg Hmp4 Havi. unfold detect_and_visualize.
  now rewrite Hpng, Hjpg, Hmp4, Havi.
Qed.

Lemma unsupported_extension_raises_witness :
  detect_and_visualize (Sample.env [Sample.tensor]) Sample.detector "notes.txt"
    None None ["person"] default_thresh true empty_world
  = (Raise (IOError unknown_extension), empty_world).
Proof.
  apply (unsupported_extension_raises (Sample.env [Sample.tensor])
           Sample.detector "notes.txt"); reflexivity.
Defined.

(** C6, the code at a video file.  The frame read from the capture
    stream is what the network is run on, but line 207 then replaces
    [img] by [cv2.imread(imgname)]: when that is [None], as for a file
    that is no still image, the call raises [TypeError] at line 208
    after the detection, and nothing is drawn or shown. *)
Theorem video_frame_replaced_by_imread (E : Env) (self : Detector)
    (imgname : string) (root_dir extension : option string)
    (classes : list string) (thresh : scalar) (show_timer : bool)
    (w : world) (slot : list row) (out : list (list row)) :
  endswith imgname ".png" || endswith imgname ".jpg" = false ->
  endswith imgname ".mp4" || endswith imgname ".avi" = true ->
  env_predict E (mod_ self)
    (PrefetchingIter (NDArrayIter (env_cap_read E imgname) 1))
  = Ok (slot :: out) ->
  env_imread E imgname = None ->
  exists w',
    detect_and_visualize E self imgname root_dir extension classes thresh
      show_timer w
    = (Raise TypeError, w')
    /\ log w'
       = log w ++ [EVideoCapture imgname; ECapRead imgname;
                   EPredict (mod_ self)
                     (PrefetchingIter (NDArrayIter (env_cap_read E imgname) 1));
                   EImread imgname].
Proof.
  intros Hstill Hvideo Hp Him. unfold detect_and_visualize.
  rewrite Hstill, Hvideo.
  unfold bind at 1. unfold emit at 1.
  unfold bind at 1. unfold emit at 1. cbn [heap log ticks].
  unfold bind at 1. unfold im_detect_single.
  match goal with
  | |- context [detect E self ?it false ?w0] =>
      destruct (detect_run E self it false w0 (slot :: out) Hp)
        as (refs & w1 & Hd & Hl & Hn & _)
  end.
  rewrite Hd. destruct refs as [|ref refs]; [discriminate Hn|].
  cbn [show_loop]. unfold bind at 1. unfold emit at 1.
  unfold bind at 1. rewrite Him. unfold swap_in_place, raise.
  eexists. split; [reflexivity|].
  cbn [log]. rewrite Hl. cbn [log timing_events as_prefetching is_prefetching negb].
  log_suffix.
Qed.

Lemma video_frame_replaced_by_imread_witness :
  exists w',
    detect_and_visualize (Sample.env [Sample.tensor]) Sample.detector "clip.mp4"
      None None ["person"; "dog"; "cat"] default_thresh false empty_world
    = (Raise TypeError, w')
    /\ log w'
       = log empty_world
         ++ [EVideoCapture "clip.mp4"; ECapRead "clip.mp4";
             EPredict (mod_ Sample.detector)
               (PrefetchingIter
                  (NDArrayIter (env_cap_read (Sample.env [Sample.tensor]) "clip.mp4") 1));
             EImread "clip.mp4"].
Proof.
  apply (video_frame_replaced_by_imread (Sample.env [Sample.tensor])
           Sample.detector "clip.mp4" None None ["person"; "dog"; "cat"]
           default_thresh false empty_world Sample.tensor []); reflexivity.
Defined.

(** Where [cv2.imread] does decode the file, the image shown is the
    decoded file, not the frame that the capture stream gave and the
    network saw. *)
Example video_shows_imread_image :
  shown (log (snd (detect_and_visualize (Sample.env_any_image [Sample.tensor])
                     Sample.detector "clip.mp4" None None
                     ["person"; "dog"; "cat"] default_thresh false empty_world)))
  = [Sample.black 4 6]
  /\ env_cap_read (Sample.env_any_image [Sample.tensor]) "clip.mp4"
     = Some (Sample.black 2 2).
Proof. vm_compute. split; reflexivity. Qed.

(** ** Further properties of the result filter *)

Lemma valid_row_kind (r : row) : valid_row r = nonnegative_kind (det_id r).
Proof.
  unfold valid_row, ge_zero, nonnegative_kind.
  destruct (det_id r) as [s|s| |s m e]; try destruct s; reflexivity.
Qed.

(** X1.  Which rows the filter keeps, by the kind of float in the first
    column: zero of either sign, plus infinity and the positive finite
    numbers are kept; NaN, minus infinity and the negative finite
    numbers are dropped. *)
Theorem result_filter_by_kind (det : list row) :
  result_filter det
  = Ok (List.filter (fun r => nonnegative_kind (det_id r)) det).
Proof.
  rewrite result_filter_spec. f_equal. unfold filter_spec.
  apply List.filter_ext. intros r. apply valid_row_kind.
Qed.

(** X2.  The two ends: the filter returns the tensor's rows unchanged
    exactly when every first column is [>= 0], and returns no row
    exactly when none is. *)
Theorem result_filter_all_or_none (det : list row) :
  (result_filter det = Ok det <-> Forall (fun r => valid_row r = true) det)
  /\ (result_filter det = Ok [] <-> Forall (fun r => valid_row r = false) det).
Proof.
  rewrite result_filter_spec. unfold filter_spec. split; split.
  - intros [= H]. apply List.Forall_forall. intros r Hr.
    rewrite <- H in Hr. now apply List.filter_In in Hr.
  - intros H. f_equal. induction H as [|r det Hr _ IH]; [reflexivity|].
    cbn [List.filter]. now rewrite Hr, IH.
  - intros [= H]. apply List.Forall_forall. intros r Hr.
    destruct (valid_row r) eqn:Hv; [|reflexivity].
    assert (Hin : In r (List.filter valid_row det)) by now apply List.filter_In.
    rewrite H in Hin. destruct Hin.
  - intros H. f_equal. induction H as [|r det Hr _ IH]; [reflexivity|].
    cbn [List.filter]. now rewrite Hr.
Qed.

(** [seq[i]] for [i >= 0] is the plain lookup. *)
Lemma getitem_nonneg {A} (l : list A) (i : Z) :
  0 <= i ->
  getitem l i
  = match nth_error l (Z.to_nat i) with
    | Some x => Ok x
    | None => Raise IndexError
    end.
Proof.
  intros Hi. unfold getitem.
  destruct (i <? Z.of_nat (List.length l)) eqn:Hlt.
  - now replace (0 <=? i) with true by (symmetry; apply Z.leb_le; lia).
  - replace (i <? 0) with false by (symmetry; apply Z.ltb_ge; lia).
    rewrite !andb_false_r.
    assert (Hnone : nth_error l (Z.to_nat i) = None).
    { apply List.nth_error_None. apply Z.ltb_ge in Hlt. lia. }
    now rewrite Hnone.
Qed.

Lemma py_int_nonnegative_kind (x : scalar) :
  nonnegative_kind x = true ->
  (exists z, py_int x = Ok z /\ 0 <= z)
  \/ (x = S754_infinity false /\ py_int x = Raise OverflowError).
Proof.
  destruct x as [s|[|]| |[|] m e]; cbn; try discriminate; intros _.
  - left. exists 0. split; [reflexivity|lia].
  - now right.
  - left. eexists. split; [reflexivity|].
    destruct (0 <=? e).
    + apply Z.shiftl_nonneg. lia.
    + apply Z.shiftr_nonneg. lia.
Qed.

(** X3.  The filter and the visualizer together: for a row that the
    filter returned, [int(det[0])] never raises [ValueError] (a NaN id
    was dropped); it either raises [OverflowError], for the id plus
    infinity, or gives a class index [>= 0], so that [classes[cls_id]]
    never counts from the end and succeeds exactly when the index is
    below the number of classes. *)
Theorem filtered_row_class_index (det res : list row) (r : row)
    (classes : list string) :
  result_filter det = Ok res ->
  In r res ->
  (det_id r = S754_infinity false /\ py_int (det_id r) = Raise OverflowError)
  \/ exists cls_id,
       py_int (det_id r) = Ok cls_id
       /\ 0 <= cls_id
       /\ is_ok (getitem classes cls_id)
          = (cls_id <? Z.of_nat (List.length classes)).
Proof.
  rewrite result_filter_spec. intros [= <-] Hin.
  apply List.filter_In in Hin. destruct Hin as [_ Hv].
  rewrite valid_row_kind in Hv.
  destruct (py_int_nonnegative_kind _ Hv) as [(z & Hz & Hz0)|Hinf]; [|now left].
  right. exists z. split; [exact Hz|]. split; [exact Hz0|].
  rewrite getitem_nonneg by exact Hz0.
  destruct (z <? Z.of_nat (List.length classes)) eqn:Hlt.
  - apply Z.ltb_lt in Hlt.
    destruct (nth_error classes (Z.to_nat z)) eqn:Hn; [reflexivity|].
    apply List.nth_error_None in Hn. lia.
  - apply Z.ltb_ge in Hlt.
    assert (Hn : nth_error classes (Z.to_nat z) = None).
    { apply List.nth_error_None. lia. }
    now rewrite Hn.
Qed.

Lemma filtered_row_class_index_witness :
  (det_id Sample.row_b = S754_infinity false
   /\ py_int (det_id Sample.row_b) = Raise OverflowError)
  \/ exists cls_id,
       py_int (det_id Sample.row_b) = Ok cls_id
       /\ 0 <= cls_id
       /\ is_ok (getitem ["person"; "dog"] cls_id)
          = (cls_id <? Z.of_nat (List.length ["person"; "dog"])).
Proof.
  apply (filtered_row_class_index Sample.tensor [Sample.row_a; Sample.row_b]
           Sample.row_b ["person"; "dog"]).
  - reflexivity.
  - right. left. reflexivity.
Defined.

(** ** Further properties of [detect] *)

Lemma detect_predict_raises_eq (E : Env) (self : Detector)
    (det_iter : data_iter) (show_timer : bool) (w : world) (e : exn) :
  env_predict E (mod_ self) (as_prefetching det_iter) = Raise e ->
  detect E self det_iter show_timer w
  = (Raise e,
     {| heap := heap w;
        log := log w ++ [EPredict (mod_ self) (as_prefetching det_iter)];
        ticks := S (ticks w) |}).
Proof.
  intros Hp. unfold detect, bind, timer, emit, lift. now rewrite Hp.
Qed.

(** X4.  When the runtime's prediction raises, [detect] raises the same
    exception: [predict] was called once, nothing is printed even with
    [show_timer] set, and no buffer is allocated. *)
Theorem detect_predict_raises (E : Env) (self : Detector)
    (det_iter : data_iter) (show_timer : bool) (w : world) (e : exn) :
  env_predict E (mod_ self) (as_prefetching det_iter) = Raise e ->
  detect E self det_iter show_timer w
  = (Raise e,
     {| heap := heap w;
        log := log w ++ [EPredict (mod_ self) (as_prefetching det_iter)];
        ticks := S (ticks w) |}).
Proof.
  intros Hp. unfold detect, bind, timer, emit, lift. now rewrite Hp.
Qed.

Lemma detect_predict_raises_witness :
  detect
    {| env_load_checkpoint := env_load_checkpoint (Sample.env []);
       env_module := env_module (Sample.env []);
       env_bind := env_bind (Sample.env []);
       env_set_params := env_set_params (Sample.env []);
       env_predict := fun _ _ => Raise (RuntimeFailure "shape mismatch");
       env_timer := env_timer (Sample.env []);
       env_imread := env_imread (Sample.env []);
       env_cap_read := env_cap_read (Sample.env []);
       env_getTextSize := env_getTextSize (Sample.env []) |}
    Sample.detector (NDArrayIter None 1) true empty_world
  = (Raise (RuntimeFailure "shape mismatch"),
     {| heap := heap empty_world;
        log := log empty_world
               ++ [EPredict (mod_ Sample.detector)
                     (as_prefetching (NDArrayIter None 1))];
        ticks := S (ticks empty_world) |}).
Proof.
  apply (detect_predict_raises _ Sample.detector (NDArrayIter None 1) true
           empty_world (RuntimeFailure "shape mismatch")).
  reflexivity.
Defined.

(** X5.  Whatever iterator [detect] is given, the runtime is called
    once and what it is handed is a [PrefetchingIter] of the same batch
    size: the given iterator itself when it already is one (no second
    wrapper), a wrapper around it otherwise. *)
Theorem detect_hands_prefetching_iter (E : Env) (self : Detector)
    (det_iter : data_iter) (show_timer : bool) (w : world) :
  exists evs it,
    log (snd (detect E self det_iter show_timer w)) = log w ++ evs
    /\ predict_calls evs = [it]
    /\ is_prefetching it = true
    /\ iter_batch_size it = iter_batch_size det_iter
    /\ it = (if is_prefetching det_iter then det_iter
             else PrefetchingIter det_iter).
Proof.
  destruct (detect_log E self det_iter show_timer w) as (evs & Hl & Hc & _).
  exists evs, (as_prefetching det_iter).
  split; [exact Hl|]. split; [exact Hc|].
  unfold as_prefetching. destruct det_iter; cbn; auto.
Qed.

(** *** Computations that differ in the log only *)

Lemma agree_ret {A} (a : A) : agree (ret a) (ret a).
Proof. now intros w1 w2 H. Qed.

Lemma agree_lift {A} (r : result A) : agree (lift r) (lift r).
Proof. now intros w1 w2 H. Qed.

Lemma agree_emit_ret (ev : event) : agree (emit ev) (ret tt).
Proof. now intros w1 w2 H. Qed.

Lemma agree_emit (ev : event) : agree (emit ev) (emit ev).
Proof. now intros w1 w2 H. Qed.

Lemma agree_timer (E : Env) : agree (timer E) (timer E).
Proof.
  intros w1 w2 [Hh Ht]. unfold timer, same_store. cbn. now rewrite Hh, Ht.
Qed.

Lemma agree_alloc (a : ndarray) : agree (alloc a) (alloc a).
Proof.
  intros w1 w2 [Hh Ht]. unfold alloc, same_store. cbn. now rewrite Hh, Ht.
Qed.

Lemma agree_read_rows (r : aref) : agree (read_rows r) (read_rows r).
Proof.
  intros w1 w2 [Hh Ht]. unfold read_rows. rewrite Hh.
  repeat case_match; now cbn.
Qed.

Lemma agree_shape0 (l : loc) : agree (shape0 l) (shape0 l).
Proof.
  intros w1 w2 [Hh Ht]. unfold shape0. rewrite Hh.
  repeat case_match; now cbn.
Qed.

Lemma agree_bind {A B} (m1 m2 : M A) (k1 k2 : A -> M B) :
  agree m1 m2 -> (forall a, agree (k1 a) (k2 a)) ->
  agree (bind m1 k1) (bind m2 k2).
Proof.
  intros Hm Hk w1 w2 Hw. unfold bind. destruct (Hm w1 w2 Hw) as [Hr Hs].
  destruct (m1 w1) as [[a1|e1] w1'], (m2 w2) as [[a2|e2] w2'];
    cbn [fst snd] in *; try discriminate.
  - injection Hr as ->. now apply Hk.
  - now injection Hr as ->.
Qed.

#[local] Hint Resolve agree_ret agree_lift agree_emit agree_emit_ret
  agree_timer agree_alloc agree_read_rows agree_shape0 : quiet.
#[local] Hint Extern 2 (agree (bind _ _) (bind _ _)) =>
  apply agree_bind; [|intros ?] : quiet.

Lemma agree_filter_slot (l : loc) (i : nat) :
  agree (filter_slot l i) (filter_slot l i).
Proof. unfold filter_slot. auto 10 with quiet. Qed.

Lemma agree_detect_loop (l : loc) (range : list nat) :
  forall acc, agree (detect_loop l range acc) (detect_loop l range acc).
Proof.
  induction range as [|i range IH]; intros acc; cbn [detect_loop].
  - apply agree_ret.
  - apply agree_bind; [apply agree_filter_slot|]. intros res. apply IH.
Qed.

Lemma agree_detect_show_timer (E : Env) (self : Detector)
    (det_iter : data_iter) :
  agree (detect E self det_iter true) (detect E self det_iter false).
Proof.
  unfold detect.
  repeat (apply agree_bind; [auto with quiet|intros ?]).
  apply agree_detect_loop.
Qed.

(** The log of [detect], event by event. *)
Lemma detect_log_exact (E : Env) (self : Detector) (det_iter : data_iter)
    (show_timer : bool) (w : world) :
  log (snd (detect E self det_iter show_timer w))
  = log w ++ EPredict (mod_ self) (as_prefetching det_iter)
             :: (if is_ok (env_predict E (mod_ self) (as_prefetching det_iter))
                 then timing_events E show_timer w else []).
Proof.
  unfold detect.
  unfold bind at 1. unfold timer at 1.
  unfold bind at 1. unfold emit at 1.
  unfold bind at 1. unfold lift at 1.
  destruct (env_predict E (mod_ self) (as_prefetching det_iter)) as [out|e];
    [|reflexivity].
  unfold bind at 1. unfold alloc at 1. cbn [heap log ticks].
  unfold bind at 1. unfold timer at 1. cbn [heap log ticks].
  assert (Hq : forall l, quiet (do n <- shape0 l ; detect_loop l (List.seq 0 n) [])).
  { intros l. apply quiet_bind; [apply quiet_shape0|].
    intros n. apply quiet_detect_loop. }
  unfold timing_events. cbn [is_ok].
  destruct show_timer; unfold bind at 1; unfold emit, ret; rewrite Hq;
    cbn [log]; log_suffix.
Qed.

(** X6.  [show_timer] changes what is printed and nothing else: with or
    without it, [detect] returns the same list (or raises the same
    exception) and leaves the same store; without it nothing is
    printed, with it the time is printed once, after a prediction that
    did not raise. *)
Theorem detect_show_timer_only_prints (E : Env) (self : Detector)
    (det_iter : data_iter) (w : world) :
  fst (detect E self det_iter true w) = fst (detect E self det_iter false w)
  /\ heap (snd (detect E self det_iter true w))
     = heap (snd (detect E self det_iter false w))
  /\ (exists evs,
        log (snd (detect E self det_iter false w)) = log w ++ evs
        /\ prints evs = [])
  /\ (exists evs,
        log (snd (detect E self det_iter true w)) = log w ++ evs
        /\ List.length (prints evs)
           = if is_ok (env_predict E (mod_ self) (as_prefetching det_iter))
             then 1%nat else 0%nat).
Proof.
  destruct (agree_detect_show_timer E self det_iter w w) as [Hr [Hh _]];
    [now split|].
  split; [exact Hr|]. split; [exact Hh|].
  split; eexists; (split; [apply detect_log_exact|]);
    now destruct (env_predict E (mod_ self) (as_prefetching det_iter)).
Qed.

Lemma detect_loop_owned (l : loc) (slots : list (list row)) (n : nat) :
  forall (a : nat) (acc : list aref) (w : world),
    heap w !! l = Some (Tensor3 slots) ->
    (a + n <= List.length slots)%nat ->
    exists refs w',
      detect_loop l (List.seq a n) acc w = (Ok (acc ++ refs), w')
      /\ preserved w w'
      /\ List.length (owned refs) = n
      /\ List.length refs = n
      /\ NoDup (owned refs)
      /\ Forall (fun l' => (l' ∉ dom (heap w)) /\ l' ∈ dom (heap w')) (owned refs).
Proof.
  induction n as [|n IH]; intros a acc w Hl Hlen.
  - exists [], w. cbn. rewrite List.app_nil_r.
    repeat split; auto using preserved_refl; constructor.
  - destruct (lookup_lt_is_Some_2 slots a) as [rows0 Hrows0]; [lia|].
    destruct (filter_slot_ok w l slots a rows0 Hl Hrows0)
      as (l1 & w1 & E1 & F1 & G1 & P1 & _).
    assert (Hl1 : heap w1 !! l = Some (Tensor3 slots)).
    { rewrite (P1 l); [exact Hl|]. apply elem_of_dom. eauto. }
    assert (Hin1 : l1 ∈ dom (heap w1)) by (apply elem_of_dom; eauto).
    destruct (IH (S a) (acc ++ [Whole l1]) w1 Hl1) as
      (refs & w' & E2 & P2 & N2 & N2' & D2 & R2); [lia|].
    exists (Whole l1 :: refs), w'.
    cbn [List.seq detect_loop]. unfold bind. rewrite E1, E2.
    rewrite <- List.app_assoc. cbn [List.app owned List.flat_map List.length].
    fold (owned refs).
    split; [reflexivity|]. split; [eauto using preserved_trans|].
    split; [congruence|]. split; [congruence|].
    rewrite List.Forall_forall in R2. split.
    + apply NoDup_cons. split; [|exact D2].
      intros Hin%list_elem_of_In. now destruct (R2 _ Hin).
    + constructor; [split; [exact F1|eauto using preserved_dom]|].
      apply List.Forall_forall. intros l' Hin.
      destruct (R2 _ Hin) as [Hf Hd]. split; [|exact Hd].
      intros Hk. apply Hf. eauto using preserved_dom.
Qed.

(** X7.  The batches that the loop of [detect] returns are arrays of
    their own: one buffer each, no buffer twice, none of them a buffer
    that existed before the loop.  Writing into one batch cannot change
    another batch or the tensor. *)
Theorem detect_loop_batches_distinct (w : world) (l : loc)
    (slots : list (list row)) :
  heap w !! l = Some (Tensor3 slots) ->
  exists refs w',
    detect_loop l (List.seq 0 (List.length slots)) [] w = (Ok refs, w')
    /\ List.length (owned refs) = List.length refs
    /\ List.length refs = List.length slots
    /\ NoDup (owned refs)
    /\ Forall (fun l' => l' <> l /\ (l' ∉ dom (heap w))) (owned refs).
Proof.
  intros Hl.
  destruct (detect_loop_owned l slots (List.length slots) 0%nat [] w Hl)
    as (refs & w' & E & _ & No & Nr & D & R); [lia|].
  exists refs, w'. split; [exact E|]. split; [congruence|].
  split; [exact Nr|]. split; [exact D|].
  eapply List.Forall_impl; [|exact R]. intros l' [Hf _].
  split; [|exact Hf]. intros ->. apply Hf. apply elem_of_dom. eauto.
Qed.

Lemma detect_loop_batches_distinct_witness :
  exists refs w',
    detect_loop Sample.tensor_loc (List.seq 0 2) [] Sample.world_with_tensor
    = (Ok refs, w')
    /\ List.length (owned refs) = List.length refs
    /\ List.length refs = 2%nat
    /\ NoDup (owned refs)
    /\ Forall (fun l' => l' <> Sample.tensor_loc
                         /\ (l' ∉ dom (heap Sample.world_with_tensor)))
              (owned refs).
Proof.
  apply (detect_loop_batches_distinct Sample.world_with_tensor Sample.tensor_loc
           [Sample.tensor; [Sample.row_pad]]).
  vm_compute. reflexivity.
Defined.

(** ** Further properties of the visualizer *)

Lemma flat_map_no {A} (f p : event -> bool) (g : event -> list A)
    (evs : list event) :
  (forall ev, p ev = true -> g ev = []) ->
  Forall (fun ev => p ev = true) evs ->
  List.flat_map g evs = [].
Proof.
  intros Hg H. induction H as [|ev evs Hev _ IH]; [reflexivity|].
  cbn. now rewrite (Hg ev Hev), IH.
Qed.

(** What one record does to the world: it appends drawing events
    only, and when it returns normally it has written as many labels
    as it has drawn boxes. *)
Lemma draw_detection_events (E : Env) (xs ys : Z) (classes : list string)
    (thresh : scalar) (det : row) (w : world) :
  exists evs,
    snd (draw_detection E xs ys classes thresh det w)
    = {| heap := heap w; log := log w ++ evs; ticks := ticks w |}
    /\ Forall (fun ev => drawing ev = true) evs
    /\ (is_ok (fst (draw_detection E xs ys classes thresh det w)) = true ->
        List.length (texts evs) = List.length (outline_boxes evs)).
Proof.
  assert (Hnil : snd (Ok tt, w) = {| heap := heap w; log := log w ++ []; ticks := ticks w |}).
  { cbn. rewrite List.app_nil_r. now destruct w. }
  unfold draw_detection, bind, lift, emit, ret, raise.
  destruct (py_int (det_id det)) as [cls|e]; cbn [fst snd heap log ticks is_ok].
  2:{ exists []. split; [exact Hnil|]. split; [constructor|discriminate]. }
  destruct (float_gt (det_score det) thresh); cbn [fst snd heap log ticks is_ok].
  2:{ exists []. split; [exact Hnil|]. split; [constructor|reflexivity]. }
  destruct (map_int _) as [[|b0 [|b1 [|b2 [|b3 [|b4 bs]]]]]|e];
    cbn [fst snd heap log ticks is_ok];
    try (exists []; split; [exact Hnil|]; split; [constructor|discriminate]).
  destruct (getitem classes cls) as [name|e]; cbn [fst snd heap log ticks is_ok].
  - destruct (env_getTextSize E _) as [[tw th] baseLine];
      cbn [fst snd heap log ticks is_ok].
    eexists. split; [rewrite <- !List.app_assoc; reflexivity|].
    split; [repeat constructor|reflexivity].
  - eexists. split; [reflexivity|]. split; [repeat constructor|discriminate].
Qed.

Lemma draw_all_events (E : Env) (xs ys : Z) (classes : list string)
    (thresh : scalar) (dets : list row) :
  forall w : world,
  exists evs,
    snd (draw_all E xs ys classes thresh dets w)
    = {| heap := heap w; log := log w ++ evs; ticks := ticks w |}
    /\ Forall (fun ev => drawing ev = true) evs
    /\ (is_ok (fst (draw_all E xs ys classes thresh dets w)) = true ->
        List.length (texts evs) = List.length (outline_boxes evs)).
Proof.
  induction dets as [|det dets IH]; intros w.
  - exists []. cbn. rewrite List.app_nil_r.
    split; [now destruct w|]. split; [constructor|reflexivity].
  - cbn [draw_all]. unfold bind at 1 2.
    destruct (draw_detection_events E xs ys classes thresh det w)
      as (evs1 & S1 & D1 & T1).
    destruct (draw_detection E xs ys classes thresh det w) as [[[]|e] w1];
      cbn [fst snd is_ok] in *.
    + destruct (IH w1) as (evs2 & S2 & D2 & T2). exists (evs1 ++ evs2).
      rewrite S2, S1. cbn [heap log ticks]. rewrite List.app_assoc.
      split; [reflexivity|]. split; [now apply List.Forall_app|].
      intros Hok. rewrite texts_app, outline_boxes_app, !List.length_app.
      rewrite <- S1 in Hok. now rewrite (T1 eq_refl), (T2 Hok).
    + exists evs1. split; [exact S1|]. split; [exact D1|discriminate].
Qed.

Lemma visualize_detection_events (E : Env) (img : image) (dets : list row)
    (classes : list string) (thresh : scalar) (w : world) :
  exists evs,
    Forall (fun ev => drawing ev = true) evs
    /\ match fst (visualize_detection E img dets classes thresh w) with
       | Ok _ =>
           snd (visualize_detection E img dets classes thresh w)
           = {| heap := heap w;
                log := log w ++ evs ++ [EImshow "result" (swap_channels img)];
                ticks := ticks w |}
           /\ List.length (texts evs) = List.length (outline_boxes evs)
       | Raise _ =>
           snd (visualize_detection E img dets classes thresh w)
           = {| heap := heap w; log := log w ++ evs; ticks := ticks w |}
       end.
Proof.
  unfold visualize_detection, shape.
  set (ys := Z.of_nat (List.length (swap_channels img))).
  set (xs := Z.of_nat (List.length (List.hd [] (swap_channels img)))).
  destruct (draw_all_events E xs ys classes thresh dets w)
    as (evs & S1 & D1 & T1).
  exists evs. split; [exact D1|]. unfold bind.
  destruct (draw_all E xs ys classes thresh dets w) as [[[]|e] w1];
    cbn [fst snd is_ok] in *; [|exact S1].
  unfold emit. cbn [fst snd]. rewrite S1. cbn [heap log ticks].
  rewrite List.app_assoc. auto.
Qed.

(** X8.  [visualize_detection] calls nothing but the drawing functions
    and, last, [cv2.imshow]: the image (in reversed channel order) is
    shown once, after all drawing, when the call returns normally, and
    not at all when it raises; on a normal return every box drawn has
    its label written.  The store is never touched. *)
Theorem visualize_detection_shows_last (E : Env) (img : image)
    (dets : list row) (classes : list string) (thresh : scalar) (w : world) :
  exists evs,
    log (snd (visualize_detection E img dets classes thresh w)) = log w ++ evs
    /\ heap (snd (visualize_detection E img dets classes thresh w)) = heap w
    /\ match fst (visualize_detection E img dets classes thresh w) with
       | Ok _ =>
           exists drawn,
             evs = drawn ++ [EImshow "result" (swap_channels img)]
             /\ Forall (fun ev => drawing ev = true) drawn
             /\ List.length (texts drawn) = List.length (outline_boxes drawn)
       | Raise _ =>
           Forall (fun ev => drawing ev = true) evs /\ shown evs = []
       end.
Proof.
  destruct (visualize_detection_events E img dets classes thresh w)
    as (evs & D & H).
  destruct (fst (visualize_detection E img dets classes thresh w)).
  - destruct H as [-> T]. eexists. cbn [heap log]. split; [reflexivity|].
    split; [reflexivity|]. exists evs. auto.
  - rewrite H. exists evs. cbn [heap log]. repeat split; auto.
    apply (flat_map_no drawing drawing); auto. now intros [].
Qed.

(** X9.  [int(det[0])] runs before the threshold test: a record whose
    class id does not convert (NaN or an infinity) makes
    [visualize_detection] raise at that record whatever its score, even
    below the threshold; when it is the first record, nothing is drawn
    or shown. *)
Theorem visualize_detection_bad_id_raises (E : Env) (img : image)
    (det : row) (dets : list row) (classes : list string) (thresh : scalar)
    (w : world) (e : exn) :
  py_int (det_id det) = Raise e ->
  visualize_detection E img (det :: dets) classes thresh w = (Raise e, w).
Proof.
  intros Hid. unfold visualize_detection, shape. cbn [draw_all].
  unfold bind, draw_detection, lift. now rewrite Hid.
Qed.

Lemma visualize_detection_bad_id_raises_witness :
  visualize_detection (Sample.env []) (Sample.black 4 6)
    [Row S754_nan (f32_lit 10 100) zero zero zero zero; Sample.row_a]
    ["person"; "dog"] default_thresh empty_world
  = (Raise ValueError, empty_world).
Proof.
  apply (visualize_detection_bad_id_raises (Sample.env []) (Sample.black 4 6)
           (Row S754_nan (f32_lit 10 100) zero zero zero zero)).
  reflexivity.
Defined.

Lemma getitem_last {A} (front : list A) (x : A) :
  getitem (front ++ [x]) (-1) = Ok x.
Proof.
  unfold getitem. rewrite List.length_app. cbn [List.length].
  replace (0 <=? -1) with false by reflexivity. cbn [andb].
  replace (- Z.of_nat (List.length front + 1) <=? -1) with true
    by (symmetry; apply Z.leb_le; lia).
  cbn [andb Z.ltb Z.compare].
  replace (Z.to_nat (Z.of_nat (List.length front + 1) + -1))
    with (List.length front + 0)%nat by lia.
  now rewrite List.nth_error_app2, Nat.add_comm, Nat.add_sub by lia.
Qed.

(** X10.  The class-name lookup is Python's: a class id that converts
    to -1 is not refused but counts from the end, so a record above the
    threshold with id -1 is labelled with the last class name. *)
Theorem negative_id_labelled_with_last_class (E : Env) (img : image)
    (det : row) (front : list string) (last : string) (thresh : scalar)
    (w : world) (box : (Z * Z) * (Z * Z)) :
  py_int (det_id det) = Ok (-1) ->
  above thresh det = true ->
  box_of (xscale_of img) (yscale_of img) det = Ok box ->
  exists evs,
    visualize_detection E img [det] (front ++ [last]) thresh w
    = (Ok tt, {| heap := heap w; log := log w ++ evs; ticks := ticks w |})
    /\ texts evs = [Label last (det_score det)]
    /\ outline_boxes evs = [box].
Proof.
  unfold above, box_of, xscale_of, yscale_of, visualize_detection, shape.
  cbn [fst snd draw_all].
  intros Hid Hab Hbox.
  unfold draw_detection, bind, lift, emit, ret, raise. rewrite Hid, Hab.
  destruct (map_int _) as [[|b0 [|b1 [|b2 [|b3 [|b4 bs]]]]]|e];
    try discriminate Hbox.
  injection Hbox as <-. rewrite getitem_last.
  destruct (env_getTextSize E _) as [[tw th] baseLine].
  cbn [heap log ticks]. eexists. split.
  - rewrite <- !List.app_assoc. reflexivity.
  - split; reflexivity.
Qed.

Lemma negative_id_labelled_with_last_class_witness :
  exists evs,
    visualize_detection (Sample.env []) (Sample.black 100 100)
      [Sample.r (-1) 90 1 1 5 5] (["person"; "dog"] ++ ["cat"])
      default_thresh empty_world
    = (Ok tt, {| heap := heap empty_world; log := log empty_world ++ evs;
                 ticks := ticks empty_world |})
    /\ texts evs = [Label "cat" (det_score (Sample.r (-1) 90 1 1 5 5))]
    /\ outline_boxes evs = [((10, 10), (50, 50))].
Proof.
  apply (negative_id_labelled_with_last_class (Sample.env [])
           (Sample.black 100 100) (Sample.r (-1) 90 1 1 5 5)
           ["person"; "dog"] "cat" default_thresh empty_world
           ((10, 10), (50, 50))); vm_compute; reflexivity.
Defined.

(** ** Further properties of [detect_and_visualize] *)

Lemma swap_channels_involutive (im : image) :
  swap_channels (swap_channels im) = im.
Proof.
  unfold swap_channels. rewrite List.map_map.
  rewrite <- (List.map_id im) at 2. apply List.map_ext. intros r.
  rewrite List.map_map. rewrite <- (List.map_id r) at 2.
  apply List.map_ext. now intros [[c0 c1] c2].
Qed.

Lemma imreads_app (evs1 evs2 : list event) :
  imreads (evs1 ++ evs2) = imreads evs1 ++ imreads evs2.
Proof. apply List.flat_map_app. Qed.

Lemma waits_app (evs1 evs2 : list event) :
  waits (evs1 ++ evs2) = waits evs1 ++ waits evs2.
Proof. apply List.flat_map_app. Qed.

Lemma drawing_silent (evs : list event) :
  Forall (fun ev => drawing ev = true) evs ->
  imreads evs = [] /\ waits evs = [] /\ shown evs = []
  /\ Forall (fun ev => viewing ev = true) evs.
Proof.
  intros H. repeat split.
  1-3: apply (flat_map_no drawing drawing); auto; now intros [].
  eapply List.Forall_impl; [|exact H]. now intros [].
Qed.

Lemma read_rows_world (r : aref) (w : world) : snd (read_rows r w) = w.
Proof. unfold read_rows. now repeat case_match. Qed.

(** The viewing loop: it reads the file, draws, shows and waits, and
    calls nothing else; on a normal return each of the references has
    had its file read, its image shown and its key awaited, and the
    image shown is the file as decoded. *)
Lemma show_loop_events (E : Env) (imgname : string) (classes : list string)
    (thresh : scalar) (delay : option Z) (refs : list aref) :
  forall w : world,
  exists evs,
    log (snd (show_loop E imgname refs classes thresh delay w)) = log w ++ evs
    /\ heap (snd (show_loop E imgname refs classes thresh delay w)) = heap w
    /\ Forall (fun ev => viewing ev = true) evs
    /\ (List.length (shown evs) <= List.length refs)%nat
    /\ (is_ok (fst (show_loop E imgname refs classes thresh delay w)) = true ->
        imreads evs = List.repeat imgname (List.length refs)
        /\ waits evs = List.repeat delay (List.length refs)
        /\ forall im, env_imread E imgname = Some im ->
                      shown evs = List.repeat im (List.length refs)).
Proof.
  induction refs as [|ref refs IH]; intros w.
  - exists []. cbn. rewrite List.app_nil_r. repeat split; auto.
  - cbn [List.length List.repeat].
    destruct (show_loop E imgname (ref :: refs) classes thresh delay w)
      as [res w'] eqn:Hrun.
    cbn [show_loop] in Hrun.
    unfold bind at 1 in Hrun. unfold emit at 1 in Hrun.
    unfold bind at 1 in Hrun.
    destruct (env_imread E imgname) as [im|] eqn:Him;
      unfold swap_in_place, ret, raise in Hrun.
    2:{ injection Hrun as <- <-. exists [EImread imgname].
        cbn [fst snd heap log is_ok].
        repeat split; auto; try discriminate. cbn. lia. }
    unfold bind at 1 in Hrun.
    set (w1 := {| heap := heap w; log := log w ++ [EImread imgname];
                  ticks := ticks w |}) in Hrun.
    pose proof (read_rows_world ref w1) as Hw1.
    destruct (read_rows ref w1) as [[rows|e] w1']; cbn [snd] in Hw1; subst w1'.
    2:{ injection Hrun as <- <-. exists [EImread imgname].
        cbn [fst snd heap log is_ok].
        repeat split; auto; try discriminate. cbn. lia. }
    unfold bind at 1 in Hrun.
    destruct (visualize_detection_events E (swap_channels im) rows classes
                thresh w1) as (evs_v & Dv & Hv).
    destruct (drawing_silent evs_v Dv) as (Iv & Wv & Sv & Vv).
    destruct (visualize_detection E (swap_channels im) rows classes thresh w1)
      as [[[]|e] w2]; cbn [fst snd] in Hv.
    2:{ subst w2. injection Hrun as <- <-. exists (EImread imgname :: evs_v).
        cbn [fst snd heap log is_ok]. rewrite <- List.app_assoc.
        repeat split; auto; try discriminate.
        change (shown (EImread imgname :: evs_v)) with (shown evs_v).
        rewrite Sv. cbn. lia. }
    destruct Hv as [-> _]. rewrite swap_channels_involutive in Hrun.
    unfold bind at 1 in Hrun. unfold emit at 1 in Hrun.
    cbn [heap log ticks] in Hrun.
    match type of Hrun with
    | show_loop E imgname refs classes thresh delay ?w3 = _ =>
        destruct (IH w3) as (evs & L & Hh & V & Hle & Hok)
    end.
    rewrite Hrun in L, Hh, Hok. subst w1. cbn [fst snd heap log ticks] in *.
    exists ((EImread imgname :: evs_v)
            ++ (EImshow "result" im :: EWaitKey delay :: evs)).
    rewrite L, Hh.
    split; [rewrite <- !List.app_assoc; reflexivity|].
    split; [reflexivity|].
    split; [apply List.Forall_app; split; constructor; auto|].
    rewrite imreads_app, waits_app, shown_app.
    change (imreads (EImread imgname :: evs_v)) with (imgname :: imreads evs_v).
    change (waits (EImread imgname :: evs_v)) with (waits evs_v).
    change (shown (EImread imgname :: evs_v)) with (shown evs_v).
    change (imreads (EImshow "result" im :: EWaitKey delay :: evs))
      with (imreads evs).
    change (waits (EImshow "result" im :: EWaitKey delay :: evs))
      with (delay :: waits evs).
    change (shown (EImshow "result" im :: EWaitKey delay :: evs))
      with (im :: shown evs).
    rewrite Iv, Wv, Sv. cbn [List.app List.length].
    split; [lia|]. intros Hr. destruct (Hok Hr) as (Hi & Hw & Hs).
    rewrite Hi, Hw. repeat split. intros im' [= <-].
    now rewrite (Hs im eq_refl).
Qed.

(** The viewing loop on a normal return, block by block. *)
Lemma show_loop_blocks (E : Env) (imgname : string) (classes : list string)
    (thresh : scalar) (delay : option Z) (im : image) (refs : list aref) :
  env_imread E imgname = Some im ->
  forall w : world,
    fst (show_loop E imgname refs classes thresh delay w) = Ok tt ->
    exists blocks,
      List.length blocks = List.length refs
      /\ Forall (Forall (fun ev => drawing ev = true)) blocks
      /\ log (snd (show_loop E imgname refs classes thresh delay w))
         = log w ++ List.concat (List.map (view_block imgname im delay) blocks).
Proof.
  intros Him. induction refs as [|ref refs IH]; intros w.
  - intros _. exists []. cbn. rewrite List.app_nil_r. repeat split. constructor.
  - destruct (show_loop E imgname (ref :: refs) classes thresh delay w)
      as [res w'] eqn:Hrun.
    cbn [fst snd]. intros ->.
    cbn [show_loop] in Hrun.
    unfold bind at 1 in Hrun. unfold emit at 1 in Hrun.
    unfold bind at 1 in Hrun. rewrite Him in Hrun.
    unfold swap_in_place, ret in Hrun.
    unfold bind at 1 in Hrun.
    set (w1 := {| heap := heap w; log := log w ++ [EImread imgname];
                  ticks := ticks w |}) in Hrun.
    pose proof (read_rows_world ref w1) as Hw1.
    destruct (read_rows ref w1) as [[rows|e] w1']; cbn [snd] in Hw1; subst w1';
      [|discriminate Hrun].
    unfold bind at 1 in Hrun.
    destruct (visualize_detection_events E (swap_channels im) rows classes
                thresh w1) as (evs_v & Dv & Hv).
    destruct (visualize_detection E (swap_channels im) rows classes thresh w1)
      as [[[]|e] w2]; cbn [fst snd] in Hv; [|discriminate Hrun].
    destruct Hv as [-> _]. rewrite swap_channels_involutive in Hrun.
    unfold bind at 1 in Hrun. unfold emit at 1 in Hrun.
    cbn [heap log ticks] in Hrun.
    match type of Hrun with
    | show_loop E imgname refs classes thresh delay ?w3 = _ =>
        destruct (IH w3) as (blocks & Hlen & Hd & Hl); [now rewrite Hrun|]
    end.
    rewrite Hrun in Hl. subst w1. cbn [fst snd heap log ticks] in *.
    exists (evs_v :: blocks).
    split; [cbn; congruence|]. split; [now constructor|].
    rewrite Hl. cbn [List.map List.concat].
    change (view_block imgname im delay evs_v)
      with (EImread imgname :: evs_v ++ [EImshow "result" im; EWaitKey delay]).
    repeat (rewrite <- ?List.app_assoc; cbn [List.app]). reflexivity.
Qed.

Lemma predict_calls_app (evs1 evs2 : list event) :
  predict_calls (evs1 ++ evs2) = predict_calls evs1 ++ predict_calls evs2.
Proof. apply List.flat_map_app. Qed.

Lemma captures_app (evs1 evs2 : list event) :
  captures (evs1 ++ evs2) = captures evs1 ++ captures evs2.
Proof. apply List.flat_map_app. Qed.

Lemma prints_app (evs1 evs2 : list event) :
  prints (evs1 ++ evs2) = prints evs1 ++ prints evs2.
Proof. apply List.flat_map_app. Qed.

Lemma viewing_silent (evs : list event) :
  Forall (fun ev => viewing ev = true) evs ->
  predict_calls evs = [] /\ prints evs = [] /\ captures evs = [].
Proof.
  intros H. repeat split; apply (flat_map_no viewing viewing); auto;
    now intros [].
Qed.

(** X11.  A still image that [cv2.imread] cannot decode is found out
    late: for a name ending in [.png] or [.jpg], the network is run
    first (through [im_detect], on the name alone), and only then does
    the loop read the file and raise [TypeError] on the [None] it got;
    nothing is drawn or shown. *)
Theorem still_image_unreadable (E : Env) (self : Detector)
    (imgname : string) (root_dir extension : option string)
    (classes : list string) (thresh : scalar) (show_timer : bool)
    (w : world) (slot : list row) (out : list (list row)) :
  endswith imgname ".png" || endswith imgname ".jpg" = true ->
  env_predict E (mod_ self)
    (PrefetchingIter
       (DetIter (MkTestDB (OnePath imgname) root_dir extension) 1
          (data_shape self) (mean_pixels self) false))
  = Ok (slot :: out) ->
  env_imread E imgname = None ->
  exists w',
    detect_and_visualize E self imgname root_dir extension classes thresh
      show_timer w
    = (Raise TypeError, w')
    /\ log w'
       = log w
         ++ EPredict (mod_ self)
              (PrefetchingIter
                 (DetIter (MkTestDB (OnePath imgname) root_dir extension) 1
                    (data_shape self) (mean_pixels self) false))
            :: timing_events E show_timer w ++ [EImread imgname].
Proof.
  intros Hstill Hp Him. unfold detect_and_visualize. rewrite Hstill.
  unfold bind at 1. unfold im_detect.
  match goal with
  | |- context [detect E self ?it show_timer w] =>
      destruct (detect_run E self it show_timer w (slot :: out) Hp)
        as (refs & w1 & Hd & Hl & Hn & _)
  end.
  rewrite Hd. destruct refs as [|ref refs]; [discriminate Hn|].
  cbn [show_loop]. unfold bind at 1. unfold emit at 1.
  unfold bind at 1. rewrite Him. unfold swap_in_place, raise.
  eexists. split; [reflexivity|].
  cbn [log]. rewrite Hl. cbn [as_prefetching is_prefetching negb].
  rewrite <- List.app_assoc. reflexivity.
Qed.

Lemma still_image_unreadable_witness :
  exists w',
    detect_and_visualize (Sample.env [Sample.tensor]) Sample.detector
      "missing.png" None None ["person"] default_thresh true empty_world
    = (Raise TypeError, w')
    /\ log w'
       = log empty_world
         ++ EPredict (mod_ Sample.detector)
              (PrefetchingIter
                 (DetIter (MkTestDB (OnePath "missing.png") None None) 1
                    (data_shape Sample.detector) (mean_pixels Sample.detector)
                    false))
            :: timing_events (Sample.env [Sample.tensor]) true empty_world
               ++ [EImread "missing.png"].
Proof.
  apply (still_image_unreadable (Sample.env [Sample.tensor]) Sample.detector
           "missing.png" None None ["person"] default_thresh true empty_world
           Sample.tensor []); reflexivity.
Defined.

(** X12.  A still image, on a normal return: after the one prediction,
    the file is read, the image shown and a key awaited (blocking,
    [cv2.waitKey()]) once per detection batch of the answer; the image
    shown each time is the file as [cv2.imread] decoded it, the two
    channel reversals of lines 199 and 154 cancelling out. *)
Theorem still_image_shown_per_batch (E : Env) (self : Detector)
    (imgname : string) (root_dir extension : option string)
    (classes : list string) (thresh : scalar) (show_timer : bool)
    (w : world) (out : list (list row)) (im : image) :
  endswith imgname ".png" || endswith imgname ".jpg" = true ->
  env_predict E (mod_ self)
    (PrefetchingIter
       (DetIter (MkTestDB (OnePath imgname) root_dir extension) 1
          (data_shape self) (mean_pixels self) false))
  = Ok out ->
  env_imread E imgname = Some im ->
  fst (detect_and_visualize E self imgname root_dir extension classes thresh
         show_timer w) = Ok tt ->
  exists evs,
    log (snd (detect_and_visualize E self imgname root_dir extension classes
                thresh show_timer w))
    = log w
      ++ EPredict (mod_ self)
           (PrefetchingIter
              (DetIter (MkTestDB (OnePath imgname) root_dir extension) 1
                 (data_shape self) (mean_pixels self) false))
         :: timing_events E show_timer w ++ evs
    /\ Forall (fun ev => viewing ev = true) evs
    /\ imreads evs = List.repeat imgname (List.length out)
    /\ shown evs = List.repeat im (List.length out)
    /\ waits evs = List.repeat None (List.length out).
Proof.
  intros Hstill Hp Him. unfold detect_and_visualize. rewrite Hstill.
  unfold bind. unfold im_detect.
  match goal with
  | |- context [detect E self ?it show_timer w] =>
      destruct (detect_run E self it show_timer w out Hp)
        as (refs & w1 & Hd & Hl & Hn & _)
  end.
  rewrite Hd.
  destruct (show_loop_events E imgname classes thresh None refs w1)
    as (evs & L & _ & V & _ & Hok).
  intros Hres. exists evs. rewrite L, Hl.
  cbn [as_prefetching is_prefetching negb].
  split; [now rewrite <- List.app_assoc|]. split; [exact V|].
  assert (Hr : is_ok (fst (show_loop E imgname refs classes thresh None w1)) = true)
    by now rewrite Hres.
  destruct (Hok Hr) as (Hi & Hw & Hs).
  rewrite <- Hn. auto.
Qed.

Lemma still_image_shown_per_batch_witness :
  exists evs,
    log (snd (detect_and_visualize (Sample.env [Sample.tensor; [Sample.row_pad]])
                Sample.detector "dog.jpg" None None ["person"; "dog"; "cat"]
                default_thresh false empty_world))
    = log empty_world
      ++ EPredict (mod_ Sample.detector)
           (PrefetchingIter
              (DetIter (MkTestDB (OnePath "dog.jpg") None None) 1
                 (data_shape Sample.detector) (mean_pixels Sample.detector)
                 false))
         :: timing_events (Sample.env [Sample.tensor; [Sample.row_pad]]) false
              empty_world ++ evs
    /\ Forall (fun ev => viewing ev = true) evs
    /\ imreads evs = List.repeat "dog.jpg" 2
    /\ shown evs = List.repeat (Sample.black 4 6) 2
    /\ waits evs = List.repeat None 2.
Proof.
  apply (still_image_shown_per_batch
           (Sample.env [Sample.tensor; [Sample.row_pad]]) Sample.detector
           "dog.jpg" None None ["person"; "dog"; "cat"] default_thresh false
           empty_world [Sample.tensor; [Sample.row_pad]] (Sample.black 4 6));
    vm_compute; reflexivity.
Defined.

Lemma timing_events_silent (E : Env) (show_timer : bool) (w : world) :
  predict_calls (timing_events E show_timer w) = []
  /\ captures (timing_events E show_timer w) = []
  /\ shown (timing_events E show_timer w) = [].
Proof. unfold timing_events. now destruct show_timer. Qed.

(** X13.  The still-image branch, whatever the libraries answer: the
    network is called exactly once, on a [DetIter] over the one name
    with batch size 1; no capture stream is opened; and the image is
    never shown more often than the answer has slots. *)
Theorem still_image_calls (E : Env) (self : Detector)
    (imgname : string) (root_dir extension : option string)
    (classes : list string) (thresh : scalar) (show_timer : bool)
    (w : world) :
  endswith imgname ".png" || endswith imgname ".jpg" = true ->
  exists evs,
    log (snd (detect_and_visualize E self imgname root_dir extension classes
                thresh show_timer w)) = log w ++ evs
    /\ predict_calls evs
       = [PrefetchingIter
            (DetIter (MkTestDB (OnePath imgname) root_dir extension) 1
               (data_shape self) (mean_pixels self) false)]
    /\ captures evs = []
    /\ forall out,
         env_predict E (mod_ self)
           (PrefetchingIter
              (DetIter (MkTestDB (OnePath imgname) root_dir extension) 1
                 (data_shape self) (mean_pixels self) false)) = Ok out ->
         (List.length (shown evs) <= List.length out)%nat.
Proof.
  intros Hstill. unfold detect_and_visualize. rewrite Hstill.
  unfold bind, im_detect.
  set (it := DetIter (MkTestDB (OnePath imgname) root_dir extension) 1
               (data_shape self) (mean_pixels self) false).
  pose proof (detect_log_exact E self it show_timer w) as Hl.
  destruct (timing_events_silent E show_timer w) as (Tp & Tc & Ts).
  change (as_prefetching it) with (PrefetchingIter it) in Hl.
  destruct (env_predict E (mod_ self) (PrefetchingIter it)) as [out|e] eqn:Hp.
  - destruct (detect_run E self it show_timer w out Hp)
      as (refs & w1 & Hd & _ & Hn & _).
    rewrite Hd in Hl |- *. cbn [snd is_ok] in Hl.
    destruct (show_loop_events E imgname classes thresh None refs w1)
      as (evs & L & _ & V & Hle & _).
    destruct (viewing_silent evs V) as (Vp & _ & Vc).
    exists ((EPredict (mod_ self) (PrefetchingIter it)
             :: timing_events E show_timer w) ++ evs).
    rewrite L, Hl. split; [now rewrite <- List.app_assoc|].
    rewrite predict_calls_app, captures_app, shown_app. cbn [List.app].
    change (predict_calls (EPredict (mod_ self) (PrefetchingIter it)
                           :: timing_events E show_timer w))
      with (PrefetchingIter it :: predict_calls (timing_events E show_timer w)).
    change (captures (EPredict (mod_ self) (PrefetchingIter it)
                      :: timing_events E show_timer w))
      with (captures (timing_events E show_timer w)).
    change (shown (EPredict (mod_ self) (PrefetchingIter it)
                   :: timing_events E show_timer w))
      with (shown (timing_events E show_timer w)).
    rewrite Tp, Tc, Ts, Vp, Vc. repeat split.
    intros out' [= <-]. cbn [List.app]. lia.
  - destruct (detect E self it show_timer w) as [[refs|e'] w1] eqn:Hd.
    { rewrite (detect_predict_raises_eq E self it show_timer w e Hp) in Hd.
      discriminate Hd. }
    cbn [snd is_ok] in Hl |- *. eexists. split; [exact Hl|].
    repeat split. discriminate.
Qed.

Lemma still_image_calls_witness :
  exists evs,
    log (snd (detect_and_visualize (Sample.env [Sample.tensor]) Sample.detector
                "dog.jpg" None None ["person"; "dog"; "cat"] default_thresh
                true empty_world)) = log empty_world ++ evs
    /\ predict_calls evs
       = [PrefetchingIter
            (DetIter (MkTestDB (OnePath "dog.jpg") None None) 1
               (data_shape Sample.detector) (mean_pixels Sample.detector)
               false)]
    /\ captures evs = []
    /\ forall out,
         env_predict (Sample.env [Sample.tensor]) (mod_ Sample.detector)
           (PrefetchingIter
              (DetIter (MkTestDB (OnePath "dog.jpg") None None) 1
                 (data_shape Sample.detector) (mean_pixels Sample.detector)
                 false)) = Ok out ->
         (List.length (shown evs) <= List.length out)%nat.
Proof.
  apply (still_image_calls (Sample.env [Sample.tensor]) Sample.detector
           "dog.jpg" None None ["person"; "dog"; "cat"] default_thresh true
           empty_world).
  reflexivity.
Defined.

(** The log of the video branch. *)
Lemma video_calls_log (E : Env) (self : Detector)
    (imgname : string) (root_dir extension : option string)
    (classes : list string) (thresh : scalar) (show_timer : bool)
    (w : world) :
  endswith imgname ".png" || endswith imgname ".jpg" = false ->
  endswith imgname ".mp4" || endswith imgname ".avi" = true ->
  exists evs,
    log (snd (detect_and_visualize E self imgname root_dir extension classes
                thresh show_timer w))
    = log w ++ EVideoCapture imgname :: ECapRead imgname
               :: EPredict (mod_ self)
                    (PrefetchingIter (NDArrayIter (env_cap_read E imgname) 1))
               :: evs
    /\ Forall (fun ev => viewing ev = true) evs
    /\ predict_calls evs = [] /\ prints evs = [] /\ captures evs = [].
Proof.
  intros Hstill Hvideo. unfold detect_and_visualize. rewrite Hstill, Hvideo.
  unfold bind at 1. unfold emit at 1.
  unfold bind at 1. unfold emit at 1. cbn [heap log ticks].
  unfold bind at 1. unfold im_detect_single.
  set (it := NDArrayIter (env_cap_read E imgname) 1).
  set (w0 := {| heap := heap w;
                log := (log w ++ [EVideoCapture imgname]) ++ [ECapRead imgname];
                ticks := ticks w |}).
  pose proof (detect_log_exact E self it false w0) as Hl.
  change (as_prefetching it) with (PrefetchingIter it) in Hl.
  assert (Hnil : (if is_ok (env_predict E (mod_ self) (PrefetchingIter it))
                  then timing_events E false w0 else []) = [])
    by now destruct (is_ok _).
  rewrite Hnil in Hl. clear Hnil.
  destruct (detect E self it false w0) as [[refs|e] w1]; cbn [snd] in Hl.
  - destruct (show_loop_events E imgname classes thresh (Some 1) refs w1)
      as (evs & L & _ & V & _).
    exists evs. rewrite L, Hl. subst w0. cbn [log].
    split; [now rewrite <- !List.app_assoc|].
    split; [exact V|]. now apply viewing_silent.
  - exists []. cbn [snd]. rewrite Hl. subst w0. cbn [log].
    split; [now rewrite <- !List.app_assoc|]. repeat split; constructor.
Qed.

(** X14.  The video branch, whatever the libraries answer: one capture
    stream is opened and read once; the network is called exactly once,
    on an [NDArrayIter] of batch size 1 over the frame as it was read
    (not resized, no mean subtracted); the [show_timer] argument is not
    passed on, so the detection time is never printed; everything after
    the prediction is reading, drawing, showing and waiting. *)
Theorem video_calls (E : Env) (self : Detector)
    (imgname : string) (root_dir extension : option string)
    (classes : list string) (thresh : scalar) (show_timer : bool)
    (w : world) :
  endswith imgname ".png" || endswith imgname ".jpg" = false ->
  endswith imgname ".mp4" || endswith imgname ".avi" = true ->
  exists evs,
    log (snd (detect_and_visualize E self imgname root_dir extension classes
                thresh show_timer w))
    = log w ++ EVideoCapture imgname :: ECapRead imgname
               :: EPredict (mod_ self)
                    (PrefetchingIter (NDArrayIter (env_cap_read E imgname) 1))
               :: evs
    /\ Forall (fun ev => viewing ev = true) evs
    /\ predict_calls evs = [] /\ prints evs = [] /\ captures evs = [].
Proof. exact (video_calls_log E self imgname root_dir extension classes thresh
                show_timer w). Qed.

Lemma video_calls_witness :
  exists evs,
    log (snd (detect_and_visualize (Sample.env_any_image [Sample.tensor])
                Sample.detector "clip.avi" None None ["person"; "dog"; "cat"]
                default_thresh true empty_world))
    = log empty_world
      ++ EVideoCapture "clip.avi" :: ECapRead "clip.avi"
         :: EPredict (mod_ Sample.detector)
              (PrefetchingIter
                 (NDArrayIter
                    (env_cap_read (Sample.env_any_image [Sample.tensor])
                       "clip.avi") 1))
         :: evs
    /\ Forall (fun ev => viewing ev = true) evs
    /\ predict_calls evs = [] /\ prints evs = [] /\ captures evs = [].
Proof.
  apply (video_calls (Sample.env_any_image [Sample.tensor]) Sample.detector
           "clip.avi" None None ["person"; "dog"; "cat"] default_thresh true
           empty_world); reflexivity.
Defined.

(** *** File names *)

Lemma substring_whole (s : string) : String.substring 0 (String.length s) s = s.
Proof.
  induction s as [|c s IH]; [reflexivity|].
  change (String c (String.substring 0 (String.length s) s) = String c s).
  now f_equal.
Qed.

Lemma substring_skip (p s : string) :
  String.substring (String.length p) (String.length s) (p ++ s)%string = s.
Proof.
  induction p as [|c p IH]; [apply substring_whole|]. exact IH.
Qed.

Lemma length_append (p s : string) :
  String.length (p ++ s)%string = (String.length p + String.length s)%nat.
Proof.
  induction p as [|c p IH]; [reflexivity|].
  change (S (String.length (p ++ s)%string)
          = S (String.length p + String.length s)%nat).
  now f_equal.
Qed.

(** [endswith] on a name split at the length of the suffix. *)
Lemma endswith_append (p x suffix : string) :
  String.length x = String.length suffix ->
  endswith (p ++ x)%string suffix = String.eqb x suffix.
Proof.
  intros Hlen. unfold endswith. rewrite length_append, <- Hlen.
  replace (String.length x <=? String.length p + String.length x)%nat
    with true by (symmetry; apply Nat.leb_le; lia).
  now rewrite Nat.add_sub, substring_skip.
Qed.

(** X15.  Only the last four characters of the name decide, and they
    are compared as they are: every name whose last four characters are
    not exactly [.png], [.jpg], [.mp4] or [.avi] (so [.txt], but also
    [.PNG] or [jpeg]) raises the [IOError], whatever precedes them, and
    the world is left as it was. *)
Theorem last_four_characters_decide (E : Env) (self : Detector)
    (p ext : string) (root_dir extension : option string)
    (classes : list string) (thresh : scalar) (show_timer : bool)
    (w : world) :
  String.length ext = 4%nat ->
  ext <> ".png" -> ext <> ".jpg" -> ext <> ".mp4" -> ext <> ".avi" ->
  detect_and_visualize E self (p ++ ext)%string root_dir extension classes
    thresh show_timer w
  = (Raise (IOError unknown_extension), w).
Proof.
  intros Hlen Hpng Hjpg Hmp4 Havi. unfold detect_and_visualize.
  rewrite !endswith_append by exact Hlen.
  apply String.eqb_neq in Hpng, Hjpg, Hmp4, Havi.
  now rewrite Hpng, Hjpg, Hmp4, Havi.
Qed.

Lemma last_four_characters_decide_witness :
  detect_and_visualize (Sample.env [Sample.tensor]) Sample.detector
    ("holiday" ++ ".PNG")%string None None ["person"] default_thresh false
    empty_world
  = (Raise (IOError unknown_extension), empty_world).
Proof.
  apply (last_four_characters_decide (Sample.env [Sample.tensor])
           Sample.detector "holiday" ".PNG");
    [reflexivity|discriminate..].
Defined.

(** X16.  A name of fewer than four characters, the empty name
    included, raises the [IOError] and leaves the world as it was. *)
Theorem short_name_raises (E : Env) (self : Detector) (imgname : string)
    (root_dir extension : option string) (classes : list string)
    (thresh : scalar) (show_timer : bool) (w : world) :
  (String.length imgname < 4)%nat ->
  detect_and_visualize E self imgname root_dir extension classes thresh
    show_timer w
  = (Raise (IOError unknown_extension), w).
Proof.
  intros Hlen. unfold detect_and_visualize, endswith. cbn [String.length].
  replace (4 <=? String.length imgname)%nat with false
    by (symmetry; apply Nat.leb_gt; exact Hlen).
  reflexivity.
Qed.

Lemma short_name_raises_witness :
  detect_and_visualize (Sample.env [Sample.tensor]) Sample.detector "" None
    None ["person"] default_thresh false empty_world
  = (Raise (IOError unknown_extension), empty_world).
Proof.
  apply (short_name_raises (Sample.env [Sample.tensor]) Sample.detector "").
  cbn. lia.
Defined.

(** X17.  Every name that ends in [.png] or [.jpg], the bare [".png"]
    included, is taken for a still image: and every other name that
    ends in [.mp4] or [.avi] for a video; the first event of the call
    tells which. *)
Theorem suffix_selects_branch (E : Env) (self : Detector) (p : string)
    (root_dir extension : option string) (classes : list string)
    (thresh : scalar) (show_timer : bool) (w : world) :
  (forall ext, ext = ".png" \/ ext = ".jpg" ->
     exists evs,
       log (snd (detect_and_visualize E self (p ++ ext)%string root_dir
                   extension classes thresh show_timer w))
       = log w
         ++ EPredict (mod_ self)
              (PrefetchingIter
                 (DetIter (MkTestDB (OnePath (p ++ ext)%string) root_dir
                             extension) 1
                    (data_shape self) (mean_pixels self) false)) :: evs)
  /\ (forall ext, ext = ".mp4" \/ ext = ".avi" ->
        exists evs,
          log (snd (detect_and_visualize E self (p ++ ext)%string root_dir
                      extension classes thresh show_timer w))
          = log w ++ EVideoCapture (p ++ ext)%string :: evs).
Proof.
  split; intros ext Hext.
  - assert (Hstill : endswith (p ++ ext)%string ".png"
                     || endswith (p ++ ext)%string ".jpg" = true).
    { destruct Hext as [-> | ->]; rewrite !endswith_append by reflexivity;
        reflexivity. }
    unfold detect_and_visualize. rewrite Hstill. unfold bind, im_detect.
    set (it := DetIter _ 1 _ _ false).
    pose proof (detect_log_exact E self it show_timer w) as Hl.
    change (as_prefetching it) with (PrefetchingIter it) in Hl.
    destruct (detect E self it show_timer w) as [[refs|e] w1]; cbn [snd] in *.
    + destruct (show_loop_events E (p ++ ext)%string classes thresh None refs w1)
        as (evs & L & _).
      eexists. rewrite L, Hl. rewrite <- List.app_assoc. reflexivity.
    + eexists. exact Hl.
  - assert (Hstill : endswith (p ++ ext)%string ".png"
                     || endswith (p ++ ext)%string ".jpg" = false).
    { destruct Hext as [-> | ->]; rewrite !endswith_append by reflexivity;
        reflexivity. }
    assert (Hvideo : endswith (p ++ ext)%string ".mp4"
                     || endswith (p ++ ext)%string ".avi" = true).
    { destruct Hext as [-> | ->]; rewrite !endswith_append by reflexivity;
        reflexivity. }
    destruct (video_calls_log E self (p ++ ext)%string root_dir extension
                classes thresh show_timer w Hstill Hvideo) as (evs & Hl & _).
    eexists. exact Hl.
Qed.

(** ** Further properties of the wrappers and the constructor *)

(** X18.  [im_detect_single] feeds the array it is given to the network
    as it is, in an [NDArrayIter] of batch size 1: of the detector it
    uses the module only, so two detectors with the same module and
    different [data_shape], [mean_pixels] or [ctx] give the same
    outcome; no resizing and no mean subtraction happen on this path. *)
Theorem im_detect_single_uses_module_only (E : Env) (self1 self2 : Detector)
    (img : option image) (show_timer : bool) (w : world) :
  mod_ self1 = mod_ self2 ->
  im_detect_single E self1 img show_timer w
  = im_detect_single E self2 img show_timer w
  /\ exists evs,
       log (snd (im_detect_single E self1 img show_timer w)) = log w ++ evs
       /\ predict_calls evs = [PrefetchingIter (NDArrayIter img 1)].
Proof.
  intros Hmod. split.
  - unfold im_detect_single, detect. now rewrite Hmod.
  - unfold im_detect_single.
    destruct (detect_log E self1 (NDArrayIter img 1) show_timer w)
      as (evs & Hl & Hc & _).
    exists evs. split; [exact Hl|exact Hc].
Qed.

Lemma im_detect_single_uses_module_only_witness :
  im_detect_single (Sample.env [Sample.tensor]) Sample.detector
    (Some (Sample.black 2 2)) false empty_world
  = im_detect_single (Sample.env [Sample.tensor])
      {| ctx := Gpu 0; mod_ := Sample.net; data_shape := 512;
         mean_pixels := (zero, zero, zero) |}
      (Some (Sample.black 2 2)) false empty_world
  /\ exists evs,
       log (snd (im_detect_single (Sample.env [Sample.tensor]) Sample.detector
                   (Some (Sample.black 2 2)) false empty_world))
       = log empty_world ++ evs
       /\ predict_calls evs
          = [PrefetchingIter (NDArrayIter (Some (Sample.black 2 2)) 1)].
Proof.
  apply (im_detect_single_uses_module_only (Sample.env [Sample.tensor])
           Sample.detector
           {| ctx := Gpu 0; mod_ := Sample.net; data_shape := 512;
              mean_pixels := (zero, zero, zero) |}).
  reflexivity.
Defined.

(** X19.  Besides building the default context value, the constructor
    calls [load_checkpoint], the [Module] constructor (on the symbol
    chosen and the [ctx] argument as given), [bind] and [set_params],
    in this order and no other library function; it stops at the first
    of the four that raises and raises the same exception; it returns a
    detector only after all four.  It allocates no array and reads no
    timer. *)
Theorem init_calls_in_order (E : Env) (sym : option symbol)
    (model_prefix : string) (epoch ds : Z) (mp : scalar * scalar * scalar)
    (b : Z) (c : option context) (w : world) :
  exists evs,
    snd (init E sym model_prefix epoch ds mp b c w)
    = {| heap := heap w; log := log w ++ evs; ticks := ticks w |}
    /\ (forall e,
          env_load_checkpoint E model_prefix epoch = Raise e ->
          fst (init E sym model_prefix epoch ds mp b c w) = Raise e
          /\ evs = [ELoadCheckpoint model_prefix epoch])
    /\ (forall load_symbol args auxs,
          env_load_checkpoint E model_prefix epoch
          = Ok (load_symbol, args, auxs) ->
          let s := match sym with None => load_symbol | Some s => s end in
          (forall e,
             env_module E s c = Raise e ->
             fst (init E sym model_prefix epoch ds mp b c w) = Raise e
             /\ evs = [ELoadCheckpoint model_prefix epoch; EModule s c])
          /\ (env_module E s c = Ok tt ->
              (forall e,
                 env_bind E s (b, 3, ds, ds) = Raise e ->
                 fst (init E sym model_prefix epoch ds mp b c w) = Raise e
                 /\ evs = [ELoadCheckpoint model_prefix epoch; EModule s c;
                           EBind (b, 3, ds, ds)])
              /\ (env_bind E s (b, 3, ds, ds) = Ok tt ->
                  evs = [ELoadCheckpoint model_prefix epoch; EModule s c;
                         EBind (b, 3, ds, ds); ESetParams]
                  /\ (forall e,
                        env_set_params E s args auxs = Raise e ->
                        fst (init E sym model_prefix epoch ds mp b c w)
                        = Raise e)
                  /\ (env_set_params E s args auxs = Ok tt ->
                      is_ok (fst (init E sym model_prefix epoch ds mp b c w))
                      = true)))).
Proof.
  unfold init, bind, emit, lift, ret.
  destruct (env_load_checkpoint E model_prefix epoch) as [[[ls args] auxs]|e0];
    cbn [fst snd heap log ticks].
  2:{ eexists. split; [reflexivity|].
      split; [intros e [= <-]; auto|discriminate]. }
  set (s := match sym with None => ls | Some s => s end).
  destruct (env_module E s c) as [[]|e1] eqn:Hm; cbn [fst snd heap log ticks].
  2:{ eexists. split; [rewrite <- List.app_assoc; reflexivity|].
      split; [discriminate|].
      intros ? ? ? [= <- <- <-]. fold s. rewrite Hm.
      split; [intros e [= <-]; auto|discriminate]. }
  destruct (env_bind E s _) as [[]|e2] eqn:Hb; cbn [fst snd heap log ticks].
  2:{ eexists. split; [rewrite <- !List.app_assoc; reflexivity|].
      split; [discriminate|].
      intros ? ? ? [= <- <- <-]. fold s. rewrite Hm, Hb.
      split; [discriminate|]. intros _.
      split; [intros e [= <-]; auto|discriminate]. }
  destruct (env_set_params E s args auxs) as [[]|e3] eqn:Hs;
    cbn [fst snd heap log ticks];
    (eexists; split; [rewrite <- !List.app_assoc; reflexivity|]);
    (split; [discriminate|]);
    intros ? ? ? [= <- <- <-]; fold s; rewrite Hm, Hb, Hs;
    (split; [discriminate|]); intros _;
    (split; [discriminate|]); intros _;
    (split; [reflexivity|]).
  - split; [discriminate|reflexivity].
  - split; [intros e [= <-]; reflexivity|discriminate].
Qed.

(** X20.  A detector that the constructor returns: it carries the
    symbol that was given, or the checkpoint's when none was given; the
    checkpoint's parameters in either case; the given [data_shape] and
    [mean_pixels]; a module bound to [(batch_size, 3, data_shape,
    data_shape)].  With [ctx=None] the detector records the CPU as its
    context, while the module was created with the [None] itself. *)
Theorem init_returns_detector (E : Env) (sym : option symbol)
    (model_prefix : string) (epoch ds : Z) (mp : scalar * scalar * scalar)
    (b : Z) (c : option context) (w0 w1 : world) (self : Detector) :
  init E sym model_prefix epoch ds mp b c w0 = (Ok self, w1) ->
  exists load_symbol args auxs,
    env_load_checkpoint E model_prefix epoch = Ok (load_symbol, args, auxs)
    /\ mod_symbol (mod_ self)
       = match sym with None => load_symbol | Some s => s end
    /\ mod_params (mod_ self) = Some (args, auxs)
    /\ mod_data_shape (mod_ self) = Some (b, 3, ds, ds)
    /\ mod_context (mod_ self) = c
    /\ ctx self = match c with None => Cpu | Some x => x end
    /\ data_shape self = ds /\ mean_pixels self = mp
    /\ env_bind E (mod_symbol (mod_ self)) (b, 3, ds, ds) = Ok tt
    /\ env_set_params E (mod_symbol (mod_ self)) args auxs = Ok tt.
Proof.
  unfold init, bind, emit, lift, ret.
  destruct (env_load_checkpoint E model_prefix epoch) as [[[ls args] auxs]|e];
    [|discriminate].
  destruct (env_module E _ _); [|discriminate].
  destruct (env_bind E _ _) as [[]|] eqn:Hb; [|discriminate].
  destruct (env_set_params E _ _ _) as [[]|] eqn:Hs; [|discriminate].
  intros [= <- _]. exists ls, args, auxs. cbn. repeat split; assumption.
Qed.

Lemma init_returns_detector_witness :
  exists load_symbol args auxs,
    env_load_checkpoint (Sample.env [Sample.tensor]) "ssd_300" 1
    = Ok (load_symbol, args, auxs)
    /\ mod_symbol (mod_ Sample.detector8)
       = match @None symbol with None => load_symbol | Some s => s end
    /\ mod_params (mod_ Sample.detector8) = Some (args, auxs)
    /\ mod_data_shape (mod_ Sample.detector8) = Some (8, 3, 300, 300)
    /\ mod_context (mod_ Sample.detector8) = None
    /\ ctx Sample.detector8 = match @None context with None => Cpu | Some x => x end
    /\ data_shape Sample.detector8 = 300
    /\ mean_pixels Sample.detector8
       = (f64_of_Z 123, f64_of_Z 117, f64_of_Z 104)
    /\ env_bind (Sample.env [Sample.tensor]) (mod_symbol (mod_ Sample.detector8))
         (8, 3, 300, 300) = Ok tt
    /\ env_set_params (Sample.env [Sample.tensor])
         (mod_symbol (mod_ Sample.detector8)) args auxs = Ok tt.
Proof.
  apply (init_returns_detector (Sample.env [Sample.tensor]) None "ssd_300" 1
           300 (f64_of_Z 123, f64_of_Z 117, f64_of_Z 104) 8 None empty_world
           Sample.world8 Sample.detector8).
  reflexivity.
Defined.

(** X21.  A video, on a normal return: after the capture and the one
    prediction, the log is one block per detection batch, each block
    being the read of the file, the drawing, the showing of the file as
    [cv2.imread] decoded it and then [cv2.waitKey(1)], in this order;
    the frame that the capture stream gave went to the network only. *)
Theorem video_shows_decoded_file (E : Env) (self : Detector)
    (imgname : string) (root_dir extension : option string)
    (classes : list string) (thresh : scalar) (show_timer : bool)
    (w : world) (out : list (list row)) (im : image) :
  endswith imgname ".png" || endswith imgname ".jpg" = false ->
  endswith imgname ".mp4" || endswith imgname ".avi" = true ->
  env_predict E (mod_ self)
    (PrefetchingIter (NDArrayIter (env_cap_read E imgname) 1)) = Ok out ->
  env_imread E imgname = Some im ->
  fst (detect_and_visualize E self imgname root_dir extension classes thresh
         show_timer w) = Ok tt ->
  exists evs,
    log (snd (detect_and_visualize E self imgname root_dir extension classes
                thresh show_timer w))
    = log w ++ EVideoCapture imgname :: ECapRead imgname
               :: EPredict (mod_ self)
                    (PrefetchingIter (NDArrayIter (env_cap_read E imgname) 1))
               :: evs
    /\ imreads evs = List.repeat imgname (List.length out)
    /\ shown evs = List.repeat im (List.length out)
    /\ waits evs = List.repeat (Some 1) (List.length out)
    /\ exists blocks,
         List.length blocks = List.length out
         /\ Forall (Forall (fun ev => drawing ev = true)) blocks
         /\ evs = List.concat
                    (List.map (view_block imgname im (Some 1)) blocks).
Proof.
  intros Hstill Hvideo Hp Him. unfold detect_and_visualize.
  rewrite Hstill, Hvideo.
  match goal with
  | |- fst ?run = _ -> _ => destruct run as [res w'] eqn:Hrun
  end.
  cbn [fst snd]. intros ->.
  unfold bind at 1 in Hrun. unfold emit at 1 in Hrun.
  unfold bind at 1 in Hrun. unfold emit at 1 in Hrun.
  cbn [heap log ticks] in Hrun.
  unfold bind in Hrun. unfold im_detect_single in Hrun.
  match type of Hrun with
  | context [detect E self ?it false ?w0] =>
      destruct (detect_run E self it false w0 out Hp)
        as (refs & w1 & Hd & Hl & Hn & _)
  end.
  rewrite Hd in Hrun.
  destruct (show_loop_events E imgname classes thresh (Some 1) refs w1)
    as (evs & L & _ & _ & _ & Hok).
  destruct (show_loop_blocks E imgname classes thresh (Some 1) im refs Him w1)
    as (blocks & Hlen & Hdraw & Hb); [now rewrite Hrun|].
  rewrite Hrun in L, Hok, Hb. cbn [fst snd is_ok] in L, Hok, Hb.
  exists evs. rewrite L, Hl.
  cbn [log timing_events as_prefetching is_prefetching negb].
  split; [now rewrite <- !List.app_assoc|].
  destruct (Hok eq_refl) as (Hi & Hw & Hs). rewrite <- Hn.
  repeat (split; [auto|]).
  exists blocks. split; [exact Hlen|]. split; [exact Hdraw|].
  rewrite L in Hb. now apply List.app_inv_head in Hb.
Qed.

Lemma video_shows_decoded_file_witness :
  exists evs,
    log (snd (detect_and_visualize (Sample.env_any_image [Sample.tensor])
                Sample.detector "clip.mp4" None None ["person"; "dog"; "cat"]
                default_thresh false empty_world))
    = log empty_world
      ++ EVideoCapture "clip.mp4" :: ECapRead "clip.mp4"
         :: EPredict (mod_ Sample.detector)
              (PrefetchingIter
                 (NDArrayIter
                    (env_cap_read (Sample.env_any_image [Sample.tensor])
                       "clip.mp4") 1))
         :: evs
    /\ imreads evs = List.repeat "clip.mp4" 1
    /\ shown evs = List.repeat (Sample.black 4 6) 1
    /\ waits evs = List.repeat (Some 1) 1
    /\ exists blocks,
         List.length blocks = 1%nat
         /\ Forall (Forall (fun ev => drawing ev = true)) blocks
         /\ evs = List.concat
                    (List.map
                       (view_block "clip.mp4" (Sample.black 4 6) (Some 1))
                       blocks).
Proof.
  apply (video_shows_decoded_file (Sample.env_any_image [Sample.tensor])
           Sample.detector "clip.mp4" None None ["person"; "dog"; "cat"]
           default_thresh false empty_world [Sample.tensor] (Sample.black 4 6));
    vm_compute; reflexivity.
Defined.
